(** * sage_analysis.model : the [Model] class

    A shallow embedding of [src/sage_analysis/model.py]: the attribute
    record of a [Model], its validating setters, the property store
    ([defaultdict(dict)] of accumulators) with its three initialisers, and
    the per-snapshot driver [calc_properties_all_files] together with
    [calc_properties].

    Conventions of the embedding.
    - Python [int] is [Z]; an [Optional] value or an attribute that is only
      bound later by the data class is an [option].
    - A Python [float] or [numpy.float64] value is a [float]: NaN, an
      infinity, or a finite value carried as the rational it denotes.  The
      float operations the code relies on ([+], [>], [pow],
      [numpy.arange]) are not code of this module: they are taken through
      the interface [Numerics], and a property stated for every instance
      of it holds however these operations round and whenever they
      overflow.  [exact] is the instance of exact arithmetic, [bounded]
      the one that also has the largest float and the largest array
      length of a 64-bit platform.
    - [dict] keyed by strings is a [gmap string _] when only lookups matter
      ([_bins], [_properties]) and an association list when the iteration
      order matters (the calculation registry).
    - A method is a computation in the monad [M]: it receives the world
      (the model together with the trace of observable calls made so far)
      and either returns or raises, in both cases handing back the world
      as mutated up to that point.
    - The two readings of the clock in [calc_properties_all_files] have no
      effect but on the text of the duration printed under [debug]; the
      print is kept as an event, its text is not. *)

From Stdlib Require Import Ascii ZArith QArith Qround Lia Lqa.
From stdpp Require Import gmap strings list fin_maps pretty.

#[local] Set Warnings "-clear-no-such-hyp".

Local Open Scope string_scope.
Local Open Scope list_scope.
Local Open Scope Z_scope.

(** ** Exceptions and outcomes *)

Inductive exn :=
| ValueError (msg : string)
| RuntimeError (msg : string)
| KeyError (key : string)
| AttributeError (attr : string)
| TypeError
| ZeroDivisionError
| OverflowError
| External (tag : string).

(** Outcome of running a method on a state of type [S]. *)
Inductive Res (S A : Type) :=
| Ok (a : A) (s : S)
| Raise (e : exn) (s : S).
Arguments Ok {S A} a s.
Arguments Raise {S A} e s.

Definition state_of {S A} (r : Res S A) : S :=
  match r with Ok _ s => s | Raise _ s => s end.

Definition is_ok {S A} (r : Res S A) : bool :=
  match r with Ok _ _ => true | Raise _ _ => false end.

(** ** Values held by the property store *)

(** A Python [float]: a finite value (the rational it denotes, the two
    zeros being one), an infinity, or NaN. *)
Inductive float :=
| finite (q : Q)
| infinity (negative : bool)
| nan.
Arguments finite q%_Q.

Definition zero : float := finite 0.

(** [numpy.ndarray] of [float64] (binned and scatter accumulators) or a
    Python [float] (single accumulators). *)
Inductive value :=
| ndarray (xs : list float)
| pyfloat (x : float).

(** [numpy.zeros(n, dtype=numpy.float64)]: a negative dimension is a
    [ValueError]. *)
Definition np_zeros (n : Z) : exn + value :=
  if n <? 0 then inl (ValueError "negative dimensions are not allowed")
  else inr (ndarray (replicate (Z.to_nat n) zero)).

(** The operations on floats that the module takes from Python and from
    numpy: [x + y], [x > y], [pow(x, n)] (which may raise) and
    [numpy.arange(start, stop, step)] (which may raise). *)
Class Numerics := {
  float_add : float → float → float;
  float_gt : float → float → bool;
  float_pow : float → Z → exn + float;
  np_arange : float → float → float → exn + list float
}.

(** *** Exact arithmetic

    The operations without rounding and without overflow; on NaN and the
    infinities they follow IEEE 754. *)

Definition exact_add (x y : float) : float :=
  match x, y with
  | nan, _ | _, nan => nan
  | finite a, finite b => finite (a + b)
  | infinity s, finite _ => infinity s
  | finite _, infinity s => infinity s
  | infinity s, infinity s' => if Bool.eqb s s' then infinity s else nan
  end.

Definition exact_gt (x y : float) : bool :=
  match x, y with
  | nan, _ | _, nan => false
  | finite a, finite b => negb (Qle_bool a b)
  | infinity s, finite _ => negb s
  | finite _, infinity s' => s'
  | infinity s, infinity s' => negb s && s'
  end.

(** [pow(x, n)] for an integer [n]: [pow(x, 0)] is [1.0] for every [x];
    a zero cannot be raised to a negative power. *)
Definition exact_pow (x : float) (n : Z) : exn + float :=
  if n =? 0 then inr (finite 1)
  else match x with
       | nan => inr nan
       | finite a =>
           if Qeq_bool a 0 && (n <? 0) then inl ZeroDivisionError
           else inr (finite (a ^ n))
       | infinity s => inr (if n <? 0 then zero else infinity (s && Z.odd n))
       end.

(** [numpy.arange(start, stop, step)] on finite floats: [ceil((stop -
    start) / step)] values [start + i * step], none when that count is
    not positive. *)
Definition arange_len (start stop step : Q) : Z :=
  Z.max 0 (Qceiling ((stop - start) / step)).

Definition arange_values (start step : Q) (len : Z) : list float :=
  (λ i : nat, finite (start + inject_Z (Z.of_nat i) * step)) <$> seq 0 (Z.to_nat len).

(** numpy first computes the length from [(stop - start) / step], a
    division of Python floats, which raises for a zero step; a NaN there
    is a [ValueError], and so is an infinity. *)
Definition exact_arange (start stop step : float) : exn + list float :=
  match step with
  | finite s =>
      if Qeq_bool s 0 then inl ZeroDivisionError
      else match start, stop with
           | finite a, finite b => inr (arange_values a s (arange_len a b s))
           | nan, _ | _, nan => inl (ValueError "arange: cannot compute length")
           | infinity s1, infinity s2 =>
               if Bool.eqb s1 s2 then inl (ValueError "arange: cannot compute length")
               else inl (ValueError "Maximum allowed size exceeded")
           | _, _ => inl (ValueError "Maximum allowed size exceeded")
           end
  | infinity _ =>
      match start, stop with
      | finite _, finite _ => inr []
      | _, _ => inl (ValueError "arange: cannot compute length")
      end
  | nan => inl (ValueError "arange: cannot compute length")
  end.

Definition exact : Numerics := {|
  float_add := exact_add;
  float_gt := exact_gt;
  float_pow := exact_pow;
  np_arange := exact_arange
|}.

(** *** Arithmetic with the limits of a 64-bit platform

    As [exact], but with the range of [float64] and of array lengths: a
    finite result that rounds to an infinity (one at or beyond
    [2^1024 - 2^970], half a step above the largest float) is that
    infinity for [+] and an [OverflowError] for [pow], and the length
    [numpy.arange] computes has to fit a signed 64-bit integer. *)

Definition overflow_bound : Q := inject_Z (2 ^ 1024 - 2 ^ 970).
Definition max_intp : Z := 2 ^ 63 - 1.

Definition bounded_add (x y : float) : float :=
  match exact_add x y with
  | finite q =>
      if Qle_bool overflow_bound q then infinity false
      else if Qle_bool q (- overflow_bound) then infinity true
      else finite q
  | r => r
  end.

Definition bounded_pow (x : float) (n : Z) : exn + float :=
  match exact_pow x n with
  | inr (finite q) =>
      if Qle_bool overflow_bound q || Qle_bool q (- overflow_bound)
      then inl OverflowError
      else inr (finite q)
  | r => r
  end.

Definition bounded_arange (start stop step : float) : exn + list float :=
  match start, stop, step with
  | finite a, finite b, finite s =>
      if Qeq_bool s 0 then inl ZeroDivisionError
      else if (max_intp <? Qceiling ((b - a) / s))
              || (Qceiling ((b - a) / s) <? - max_intp - 1)
      then inl (ValueError "Maximum allowed size exceeded")
      else exact_arange start stop step
  | _, _, _ => exact_arange start stop step
  end.

Definition bounded : Numerics := {|
  float_add := bounded_add;
  float_gt := exact_gt;
  float_pow := bounded_pow;
  np_arange := bounded_arange
|}.

(** [range(a, b)] *)
Definition py_range (a b : Z) : list Z := seqZ a (b - a).

(** [str(x)] for an optional value, as an f-string renders it. *)
Definition fmt_opt {A} (f : A → string) (o : option A) : string :=
  match o with Some a => f a | None => "None" end.

(** [f"snapshot_{snapshot}"] *)
Definition snapshot_key (snapshot : Z) : string := "snapshot_" +:+ pretty snapshot.

(** ** The model *)

Section Model.

(** [DS] is the state kept by the data class object bound to the model. *)
Context {DS : Type}.

Record Model := mkModel {
  _sage_file : string;
  _IMF : string;
  _label : option string;
  _sage_output_format : option string;
  _first_file_to_analyze : option Z;
  _last_file_to_analyze : option Z;
  _random_seed : option Z;
  _plot_toggles : list (string * bool);
  _plots_that_need_smf : list string;
  _sample_size : Z;
  _sSFRcut : float;
  _bins : gmap string (list float);
  _properties : gmap string (gmap string value);
  _num_sage_output_files : option Z;
  (* attributes bound by the data class, absent after construction *)
  _hubble_h : option float;
  _box_size : option float;
  _volume : option float;
  _snapshot : option Z;
  _num_gals_all_files : option Z;
  data_class : DS
}.

Definition with_IMF (v : string) (m : Model) : Model :=
  mkModel (_sage_file m) v (_label m) (_sage_output_format m)
    (_first_file_to_analyze m) (_last_file_to_analyze m) (_random_seed m)
    (_plot_toggles m) (_plots_that_need_smf m) (_sample_size m) (_sSFRcut m)
    (_bins m) (_properties m) (_num_sage_output_files m) (_hubble_h m)
    (_box_size m) (_volume m) (_snapshot m) (_num_gals_all_files m)
    (data_class m).

Definition with_volume (v : option float) (m : Model) : Model :=
  mkModel (_sage_file m) (_IMF m) (_label m) (_sage_output_format m)
    (_first_file_to_analyze m) (_last_file_to_analyze m) (_random_seed m)
    (_plot_toggles m) (_plots_that_need_smf m) (_sample_size m) (_sSFRcut m)
    (_bins m) (_properties m) (_num_sage_output_files m) (_hubble_h m)
    (_box_size m) v (_snapshot m) (_num_gals_all_files m)
    (data_class m).

Definition with_bins (v : gmap string (list float)) (m : Model) : Model :=
  mkModel (_sage_file m) (_IMF m) (_label m) (_sage_output_format m)
    (_first_file_to_analyze m) (_last_file_to_analyze m) (_random_seed m)
    (_plot_toggles m) (_plots_that_need_smf m) (_sample_size m) (_sSFRcut m)
    v (_properties m) (_num_sage_output_files m) (_hubble_h m)
    (_box_size m) (_volume m) (_snapshot m) (_num_gals_all_files m)
    (data_class m).

Definition with_properties (v : gmap string (gmap string value)) (m : Model) : Model :=
  mkModel (_sage_file m) (_IMF m) (_label m) (_sage_output_format m)
    (_first_file_to_analyze m) (_last_file_to_analyze m) (_random_seed m)
    (_plot_toggles m) (_plots_that_need_smf m) (_sample_size m) (_sSFRcut m)
    (_bins m) v (_num_sage_output_files m) (_hubble_h m)
    (_box_size m) (_volume m) (_snapshot m) (_num_gals_all_files m)
    (data_class m).

Definition with_snapshot (v : option Z) (m : Model) : Model :=
  mkModel (_sage_file m) (_IMF m) (_label m) (_sage_output_format m)
    (_first_file_to_analyze m) (_last_file_to_analyze m) (_random_seed m)
    (_plot_toggles m) (_plots_that_need_smf m) (_sample_size m) (_sSFRcut m)
    (_bins m) (_properties m) (_num_sage_output_files m) (_hubble_h m)
    (_box_size m) (_volume m) v (_num_gals_all_files m)
    (data_class m).

Definition with_num_gals_all_files (v : option Z) (m : Model) : Model :=
  mkModel (_sage_file m) (_IMF m) (_label m) (_sage_output_format m)
    (_first_file_to_analyze m) (_last_file_to_analyze m) (_random_seed m)
    (_plot_toggles m) (_plots_that_need_smf m) (_sample_size m) (_sSFRcut m)
    (_bins m) (_properties m) (_num_sage_output_files m) (_hubble_h m)
    (_box_size m) (_volume m) (_snapshot m) v
    (data_class m).

Definition with_box_size (v : option float) (m : Model) : Model :=
  mkModel (_sage_file m) (_IMF m) (_label m) (_sage_output_format m)
    (_first_file_to_analyze m) (_last_file_to_analyze m) (_random_seed m)
    (_plot_toggles m) (_plots_that_need_smf m) (_sample_size m) (_sSFRcut m)
    (_bins m) (_properties m) (_num_sage_output_files m) (_hubble_h m)
    v (_volume m) (_snapshot m) (_num_gals_all_files m)
    (data_class m).

(** [Model.__init__].  The data class object [dc] is bound to the model by
    the caller right after construction; it is taken here so that the
    record is complete. *)
Definition __init__ (dc : DS)
    (sage_file : string) (sage_output_format : option string)
    (label : option string)
    (first_file_to_analyze last_file_to_analyze : option Z)
    (num_sage_output_files : option Z) (random_seed : option Z)
    (IMF : string) (plot_toggles : list (string * bool))
    (plots_that_need_smf : list string)
    (sample_size : Z) (sSFRcut : float) : exn + Model :=
  let binary := bool_decide (sage_output_format = Some "sage_binary") in
  if bool_decide (num_sage_output_files = None) && binary then
    inl (RuntimeError "When analysing binary SAGE output, the number of output files generated by SAGE must be specified.")
  else if (bool_decide (first_file_to_analyze = None)
           || bool_decide (last_file_to_analyze = None)) && binary then
    inl (RuntimeError "When analysing binary SAGE output, the first and last SAGE output file to analyze must be specified.")
  else
    inr (mkModel sage_file IMF label sage_output_format
           first_file_to_analyze last_file_to_analyze random_seed
           plot_toggles plots_that_need_smf sample_size sSFRcut
           ∅ ∅ num_sage_output_files None None None None None dc).

End Model.
Arguments Model : clear implicits.

(** ** Worlds, events and the method monad *)

Section Engine.

(** [Gals] is the type of one batch of galaxies, [Kwargs] the type of a
    bundle of keyword arguments. *)
Context {DS Gals Kwargs : Type}.

(** Code that lives outside this module (the data class, the calculation
    functions) gets the model itself and may mutate any of its attributes
    or raise. *)
Definition Ext (A : Type) : Type := Model DS → Res (Model DS) A.

(** A calculation function, called as [func(model, gals, snapshot, **kwargs)]. *)
Definition CalcFn : Type := Model DS → Gals → Z → Kwargs → Res (Model DS) unit.

(** The [tqdm] progress bar handed to [read_gals]. *)
Record Pbar := mkPbar { pbar_total : Z }.

(** What an observer of a run can see, in the order it happens. *)
Inductive Event :=
| EvPrint (line : string)
| EvPrintCalculationFunctions (toggles : list string)
| EvPrintDuration
| EvLogInfo (line : string)
| EvUpdateSnapshot (snapshot : Z)
| EvDetermineNumGals (snapshot : Z)
| EvTqdm (total : Z)
| EvReadGals (file_num snapshot : Z) (pbar : option Pbar) (debug : bool)
| EvCalc (func : CalcFn) (gals : Gals) (snapshot : Z) (kwargs : Kwargs)
| EvCloseFile.

Record World := mkWorld { model : Model DS; trace : list Event }.

Definition M (A : Type) : Type := World → Res World A.

Definition ret {A} (a : A) : M A := λ w, Ok a w.

Definition bind {A B} (c : M A) (k : A → M B) : M B :=
  λ w, match c w with
       | Ok a w' => k a w'
       | Raise e w' => Raise e w'
       end.

Definition raise {A} (e : exn) : M A := λ w, Raise e w.

Definition emit (ev : Event) : M unit :=
  λ w, Ok tt (mkWorld (model w) (trace w ++ [ev])).

(** Reading an attribute that may not be bound yet. *)
Definition getattr {A} (name : string) (proj : Model DS → option A) : M A :=
  λ w, match proj (model w) with
       | Some a => Ok a w
       | None => Raise (AttributeError name) w
       end.

Definition modify (f : Model DS → Model DS) : M unit :=
  λ w, Ok tt (mkWorld (f (model w)) (trace w)).

(** A call into outside code: the call is observed, then the callee runs on
    the model. *)
Definition call {A} (ev : Event) (f : Ext A) : M A :=
  λ w, match f (model w) with
       | Ok a m' => Ok a (mkWorld m' (trace w ++ [ev]))
       | Raise e m' => Raise e (mkWorld m' (trace w ++ [ev]))
       end.

(** [for x in xs: body(x)] *)
Fixpoint for_ {A} (xs : list A) (body : A → M unit) : M unit :=
  match xs with
  | [] => ret tt
  | x :: xs' => bind (body x) (λ _, for_ xs' body)
  end.

End Engine.

Arguments Pbar : clear implicits.
Arguments Event : clear implicits.
Arguments World : clear implicits.
Arguments M : clear implicits.
Arguments CalcFn : clear implicits.
Arguments Ext : clear implicits.


Global Instance M_ret {DS Gals Kwargs} : MRet (M DS Gals Kwargs) := @ret DS Gals Kwargs.
Global Instance M_bind {DS Gals Kwargs} : MBind (M DS Gals Kwargs) :=
  λ A B k c, bind c k.


(** Unfolds the plumbing of [M] so that a method can be run by [simpl]. *)
Ltac unfold_M :=
  unfold mbind, mret, M_bind, M_ret, bind, ret, raise, emit, getattr,
    modify, call in *.

(** ** The data class interface

    The four methods [calc_properties_all_files] calls on
    [self.data_class]; their bodies belong to the concrete data classes
    ([SageBinaryData], [SageHdf5Data]), which live in other modules. *)
Record DataClass {DS Gals : Type} := mkDataClass {
  update_snapshot_and_data_path : Z → Ext DS unit;
  determine_num_gals : Z → Ext DS unit;
  read_gals : Z → Z → option Pbar → bool → Ext DS (option Gals);
  close_file : Ext DS unit
}.
Arguments DataClass : clear implicits.

(** ** Methods of [Model] *)

Section Methods.

Context {DS Gals Kwargs : Type}.

(** The float operations of Python and numpy. *)
Context {num : Numerics}.

Local Abbreviation M := (M DS Gals Kwargs).
Local Abbreviation World := (World DS Gals Kwargs).
Local Abbreviation Event := (Event DS Gals Kwargs).
Local Abbreviation CalcFn := (CalcFn DS Gals Kwargs).

Definition newline : string := String "010"%char "".

Definition lift_exn {A} (r : exn + A) : M A :=
  match r with inl e => raise e | inr a => mret a end.

(** [Model.__repr__] *)
Definition __repr__ (m : Model DS) : string :=
  "========================" +:+ newline +:+
  "Model " +:+ fmt_opt id (_label m) +:+ newline +:+
  "SAGE File: " +:+ _sage_file m +:+ newline +:+
  "SAGE Output Format: " +:+ fmt_opt id (_sage_output_format m) +:+ newline +:+
  "First file to read: " +:+ fmt_opt pretty (_first_file_to_analyze m) +:+ newline +:+
  "Last file to read: " +:+ fmt_opt pretty (_last_file_to_analyze m) +:+ newline +:+
  "========================".

(** [Model.volume] (setter) *)
Definition volume_setter (vol : float) : M unit :=
  box_size ← getattr "_box_size" _box_size;
  cube ← lift_exn (float_pow box_size 3);
  if float_gt vol cube then
    emit (EvPrint "The volume analyzed by a model cannot exceed the volume of the box itself.  Error was encountered for the following model.");;
    (λ w, emit (EvPrint (__repr__ (model w))) w);;
    raise (ValueError "")
  else
    modify (with_volume (Some vol)).

Definition allowed_IMF : list string := ["Chabrier"; "Salpeter"].

(** [Model.IMF] (setter) *)
Definition IMF_setter (IMF : string) : M unit :=
  if bool_decide (IMF ∉ allowed_IMF) then
    raise (ValueError ("Value of IMF selected (" +:+ IMF +:+
             ") is not allowed. Only ['Chabrier', 'Salpeter'] are allowed."))
  else
    modify (with_IMF IMF).

(** *** The property store *)

(** [d[key]] on a [defaultdict(dict)]: a missing key is bound to a fresh
    empty [dict], which is returned. *)
Definition defaultdict_getitem (key : string) (d : gmap string (gmap string value))
    : gmap string value * gmap string (gmap string value) :=
  match d !! key with
  | Some inner => (inner, d)
  | None => (∅, <[key := ∅]> d)
  end.

(** [self.properties[key][name] = v] *)
Definition properties_setitem (key name : string) (v : value) : M unit :=
  modify (λ m,
    let '(inner, d) := defaultdict_getitem key (_properties m) in
    with_properties (<[key := <[name := v]> inner]> d) m).

(** [model.properties[key]], as a consumer of the store reads it. *)
Definition properties_getitem (key : string) : M (gmap string value) :=
  λ w, let '(inner, d) := defaultdict_getitem key (_properties (model w)) in
       Ok inner (mkWorld (with_properties d (model w)) (trace w)).

(** [model.properties[key][name]] *)
Definition properties_getitem2 (key name : string) : M value :=
  inner ← properties_getitem key;
  match inner !! name with
  | Some v => mret v
  | None => raise (KeyError name)
  end.

(** The accumulator found at [(key, name)] in a store, looking without
    touching it. *)
Definition accumulator (d : gmap string (gmap string value)) (key name : string)
    : option value :=
  d !! key ≫= λ inner, inner !! name.

(** [Model.init_binned_properties] *)
Definition init_binned_properties (bin_low bin_high bin_width : float)
    (bin_name : string) (property_names : list string) (snapshot : Z) : M unit :=
  bins ← lift_exn (np_arange bin_low (float_add bin_high bin_width) bin_width);
  modify (λ m, with_bins (<[bin_name := bins]> (_bins m)) m);;
  for_ property_names (λ my_property,
    zeros ← lift_exn (np_zeros (Z.of_nat (length bins) - 1));
    properties_setitem (snapshot_key snapshot) my_property zeros).

(** [Model.init_scatter_properties] *)
Definition init_scatter_properties (property_names : list string) (snapshot : Z)
    : M unit :=
  for_ property_names (λ my_property,
    properties_setitem (snapshot_key snapshot) my_property (ndarray [])).

(** [Model.init_single_properties] *)
Definition init_single_properties (property_names : list string) (snapshot : Z)
    : M unit :=
  for_ property_names (λ my_property,
    properties_setitem (snapshot_key snapshot) my_property (pyfloat zero)).

(** *** The driver *)

(** [calculation_functions.values()] *)
Definition values {K V} (d : list (K * V)) : list V := d.*2.

(** [calculation_functions.keys()] *)
Definition keys {K V} (d : list (K * V)) : list K := d.*1.

(** [Model.calc_properties] *)
Definition calc_properties (calculation_functions : list (string * (CalcFn * Kwargs)))
    (gals : Gals) (snapshot : Z) : M unit :=
  for_ (values calculation_functions) (λ '(func, kwargs),
    call (EvCalc func gals snapshot kwargs) (λ self, func self gals snapshot kwargs)).

(** The data class bound to the model, and whether [from tqdm import tqdm]
    succeeded when the module was loaded. *)
Context (dc : DataClass DS Gals) (tqdm_imported : bool).

(** The [try: ... except NameError: pbar = None] block. *)
Definition make_pbar (use_pbar debug : bool) : M (option Pbar) :=
  if debug || negb use_pbar then mret None
  else if tqdm_imported then
    total ← getattr "_num_gals_all_files" _num_gals_all_files;
    emit (EvTqdm total);;
    mret (Some (mkPbar total))
  else mret None.

(** One turn of the loop over the files. *)
Definition file_step (calculation_functions : list (string * (CalcFn * Kwargs)))
    (snapshot : Z) (pbar : option Pbar) (debug : bool) (file_num : Z) : M unit :=
  gals ← call (EvReadGals file_num snapshot pbar debug)
              (read_gals dc file_num snapshot pbar debug);
  match gals with
  | None => mret tt
  | Some gals =>
      emit (EvPrintCalculationFunctions (keys calculation_functions));;
      calc_properties calculation_functions gals snapshot
  end.

(** [range(self.first_file_to_analyze, self.last_file_to_analyze + 1)] *)
Definition file_range : M (list Z) :=
  λ w, match _first_file_to_analyze (model w), _last_file_to_analyze (model w) with
       | Some first, Some last => Ok (py_range first (last + 1)) w
       | _, _ => Raise TypeError w
       end.

(** [Model.calc_properties_all_files] *)
Definition calc_properties_all_files
    (calculation_functions : list (string * (CalcFn * Kwargs)))
    (snapshot : Z) (close_file_flag use_pbar debug : bool) : M unit :=
  call (EvUpdateSnapshot snapshot) (update_snapshot_and_data_path dc snapshot);;
  call (EvDetermineNumGals snapshot) (determine_num_gals dc snapshot);;
  num_gals ← getattr "_num_gals_all_files" _num_gals_all_files;
  if num_gals =? 0 then
    snap ← getattr "_snapshot" _snapshot;
    emit (EvLogInfo ("There were no galaxies associated with this model at Snapshot "
                     +:+ pretty snap +:+ "."));;
    emit (EvPrint (pretty num_gals))
  else
    pbar ← make_pbar use_pbar debug;
    files ← file_range;
    for_ files (file_step calculation_functions snapshot pbar debug);;
    (if close_file_flag then call EvCloseFile (close_file dc) else mret tt);;
    if debug then emit EvPrintDuration;; emit (EvPrint "") else mret tt.

End Methods.

(** * Vocabulary of the statements *)

Section Vocabulary.

Context {DS Gals Kwargs : Type} {num : Numerics}.
Local Abbreviation World := (World DS Gals Kwargs).

(** The store after [d[key][name] = v]. *)
Definition store_set (key name : string) (v : value)
    (d : gmap string (gmap string value)) : gmap string (gmap string value) :=
  <[key := <[name := v]> (default ∅ (d !! key))]> d.

(** What an initialiser called for the snapshot key [key], the property
    names [names] and (for the binned one) the bin name [bin] leaves alone:
    the trace, every attribute other than the two stores, the whole
    mapping of every other snapshot key, every accumulator [(k, p)] that
    is not one of the [(key, p)], [p ∈ names], and every other entry of
    the bin registry. *)
Definition init_frame (key : string) (names : list string) (bin : option string)
    (w w' : World) : Prop :=
  trace w' = trace w ∧
  model w' = with_bins (_bins (model w'))
               (with_properties (_properties (model w')) (model w)) ∧
  (∀ k, k ≠ key → _properties (model w') !! k = _properties (model w) !! k) ∧
  (∀ k p, k ≠ key ∨ p ∉ names →
     accumulator (_properties (model w')) k p = accumulator (_properties (model w)) k p) ∧
  (∀ b, bin ≠ Some b → _bins (model w') !! b = _bins (model w) !! b).

(** A call of one of the three initialisers. *)
Inductive init_call :=
| InitBinned (bin_low bin_high bin_width : float) (bin_name : string)
    (property_names : list string) (snapshot : Z)
| InitScatter (property_names : list string) (snapshot : Z)
| InitSingle (property_names : list string) (snapshot : Z).

Definition init_names (c : init_call) : list string :=
  match c with
  | InitBinned _ _ _ _ names _ | InitScatter names _ | InitSingle names _ => names
  end.

Definition init_snapshot (c : init_call) : Z :=
  match c with
  | InitBinned _ _ _ _ _ s | InitScatter _ s | InitSingle _ s => s
  end.

Definition run_init (c : init_call) : M DS Gals Kwargs unit :=
  match c with
  | InitBinned lo hi width bin_name names s =>
      init_binned_properties lo hi width bin_name names s
  | InitScatter names s => init_scatter_properties names s
  | InitSingle names s => init_single_properties names s
  end.

(** The world after a caller has made the calls [cs] one after the other,
    going on after a call that raised. *)
Definition after_inits (cs : list init_call) (w : World) : World :=
  foldl (λ w c, state_of (run_init c w)) w cs.

(** *** Reading a trace *)

Local Abbreviation Event := (Event DS Gals Kwargs).
Local Abbreviation CalcFn := (CalcFn DS Gals Kwargs).

(** The file numbers [read_gals] was asked for, in order. *)
Definition read_requests (tr : list Event) : list Z :=
  omap (λ ev, match ev with EvReadGals file_num _ _ _ => Some file_num | _ => None end) tr.

(** The calls of calculation functions, in order. *)
Definition calc_calls (tr : list Event) : list (CalcFn * Gals * Z * Kwargs) :=
  omap (λ ev, match ev with
              | EvCalc func gals snapshot kwargs => Some (func, gals, snapshot, kwargs)
              | _ => None
              end) tr.

(** How many times the data class was asked to close. *)
Definition close_calls (tr : list Event) : nat :=
  length (omap (λ ev, match ev with EvCloseFile => Some tt | _ => None end) tr).

(** How many progress bars were opened. *)
Definition pbars_opened (tr : list Event) : nat :=
  length (omap (λ ev, match ev with EvTqdm _ => Some tt | _ => None end) tr).

(** Events of one turn of the loop once the batch is there. *)
Definition batch_event (ev : Event) : Prop :=
  match ev with
  | EvPrintCalculationFunctions _ | EvCalc _ _ _ _ => True
  | _ => False
  end.

(** The event of calling one registry entry on a batch. *)
Definition calc_event (gals : Gals) (snapshot : Z) (entry : CalcFn * Kwargs) : Event :=
  EvCalc entry.1 gals snapshot entry.2.

(** The model after the entries have run one after the other, each on the
    model the previous one left. *)
Definition run_entries (gals : Gals) (snapshot : Z) (entries : list (CalcFn * Kwargs))
    (m : Model DS) : Model DS :=
  foldl (λ m entry, state_of (entry.1 m gals snapshot entry.2)) m entries.

End Vocabulary.

(** * A small instance

    A data class that keeps the batches of its sub-files in memory
    ([None] for a sub-file to skip), and two calculation functions: a
    running total of the masses and a count of the galaxies. *)

Module Demo.

Definition DS : Type := list (option (list Q)).
Definition Gals : Type := list Q.
Definition Kwargs : Type := Q.

Definition demo_data_class : DataClass DS Gals := {|
  update_snapshot_and_data_path snapshot m := Ok tt (with_snapshot (Some snapshot) m);
  determine_num_gals snapshot m :=
    Ok tt (with_num_gals_all_files
             (Some (Z.of_nat (length (concat (omap id (data_class m)))))) m);
  read_gals file_num snapshot pbar debug m :=
    Ok (mjoin (data_class m !! Z.to_nat file_num)) m;
  close_file m := Ok tt m
|}.

Definition Qsum (xs : list Q) : Q := foldr Qplus 0%Q xs.

(** Adds [scale] times the masses of the batch to the single property
    [name]. *)
Definition add_to_single (name : string) (amount : Gals → Q)
    : CalcFn DS Gals Kwargs :=
  λ m gals snapshot scale,
    match accumulator (_properties m) (snapshot_key snapshot) name with
    | Some (pyfloat (finite x)) =>
        Ok tt (with_properties
                 (store_set (snapshot_key snapshot) name
                    (pyfloat (finite (Qred (x + scale * amount gals))))
                    (_properties m)) m)
    | _ => Raise (KeyError name) m
    end.

Definition calc_total_mass : CalcFn DS Gals Kwargs := add_to_single "TotalMass" Qsum.
Definition calc_num_gals : CalcFn DS Gals Kwargs :=
  add_to_single "NumGals" (λ gals, inject_Z (Z.of_nat (length gals))).

Definition demo_functions : list (string * (CalcFn DS Gals Kwargs * Kwargs)) :=
  [("TotalMass", (calc_total_mass, 1%Q)); ("NumGals", (calc_num_gals, 1%Q))].

(** Construction of a model over the sub-files [files], analysing files
    [0 .. last]. *)
Definition construct (files : DS) (last : Z) (IMF : string) : exn + Model DS :=
  __init__ files "mini-millennium.ini" (Some "sage_hdf5") None
    (Some 0) (Some last) None None IMF [] [] 1000 (finite (-11 # 1)).

(** The model that construction yields (see [construct_demo_model]). *)
Definition demo_model (files : DS) (last : Z) : Model DS :=
  mkModel "mini-millennium.ini" "Chabrier" None (Some "sage_hdf5")
    (Some 0) (Some last) None [] [] 1000 (finite (-11 # 1)) ∅ ∅
    None None None None None None files.

Definition demo_world (files : DS) (last : Z) : World DS Gals Kwargs :=
  mkWorld (demo_model files last) [].

End Demo.

(** * Further vocabulary *)

Section Effects.

Context {DS Gals Kwargs : Type} {num : Numerics}.
Local Abbreviation World := (World DS Gals Kwargs).
Local Abbreviation Event := (Event DS Gals Kwargs).
Local Abbreviation CalcFn := (CalcFn DS Gals Kwargs).

(** The inner mapping after [inner[p] = v] for each [p] of [names]. *)
Definition fill (names : list string) (v : value) (inner : gmap string value)
    : gmap string value :=
  foldl (λ inner p, <[p := v]> inner) inner names.

(** The store after [d[key][p] = v] for each [p] of [names]. *)
Definition set_all (key : string) (names : list string) (v : value)
    (d : gmap string (gmap string value)) : gmap string (gmap string value) :=
  foldl (λ d p, store_set key p v d) d names.

(** The bin entry a call of an initialiser writes, if it gets that far. *)
Definition init_bins (c : init_call) : option (string * list float) :=
  match c with
  | InitBinned lo hi width bin_name _ _ =>
      match np_arange lo (float_add hi width) width with
      | inr edges => Some (bin_name, edges)
      | inl _ => None
      end
  | _ => None
  end.

(** The value a call of an initialiser stores under each of its names, if
    it gets that far. *)
Definition init_value (c : init_call) : option value :=
  match c with
  | InitBinned lo hi width _ _ _ =>
      match np_arange lo (float_add hi width) width with
      | inr edges =>
          match np_zeros (Z.of_nat (length edges) - 1) with
          | inr zeros => Some zeros
          | inl _ => None
          end
      | inl _ => None
      end
  | InitScatter _ _ => Some (ndarray [])
  | InitSingle _ _ => Some (pyfloat zero)
  end.

(** The bin name of a call, for the binned initialiser. *)
Definition init_bin_name (c : init_call) : option string :=
  match c with InitBinned _ _ _ bin_name _ _ => Some bin_name | _ => None end.

(** Two calls that write no accumulator and no bin entry in common. *)
Definition independent (c1 c2 : init_call) : Prop :=
  (init_snapshot c1 ≠ init_snapshot c2 ∨
   ∀ p, p ∈ init_names c1 → p ∉ init_names c2) ∧
  (init_bin_name c1 = None ∨ init_bin_name c1 ≠ init_bin_name c2).

(** The model a call of an initialiser leaves, returning or raising. *)
Definition init_effect (c : init_call) (m : Model DS) : Model DS :=
  with_bins
    (match init_bins c with
     | Some (bin_name, edges) => <[bin_name := edges]> (_bins m)
     | None => _bins m
     end)
    (with_properties
       (match init_value c with
        | Some v => set_all (snapshot_key (init_snapshot c)) (init_names c) v
                      (_properties m)
        | None => _properties m
        end) m).

End Effects.

Section Assignments.

Context {DS Gals Kwargs : Type} {num : Numerics}.
Local Abbreviation World := (World DS Gals Kwargs).

(** An assignment to one of the two validated properties. *)
Inductive assignment :=
| AssignVolume (vol : float)
| AssignIMF (IMF : string).

Definition run_assignment (a : assignment) : M DS Gals Kwargs unit :=
  match a with
  | AssignVolume vol => volume_setter vol
  | AssignIMF IMF => IMF_setter IMF
  end.

(** The world after a caller has made the assignments one after the
    other, going on after one that raised. *)
Definition after_assignments (assignments : list assignment) (w : World) : World :=
  foldl (λ w a, state_of (run_assignment a w)) w assignments.

(** The stored volume, if any, is not greater, as [>] on floats has it,
    than the cube of the box size as [pow] computes it. *)
Definition volume_not_above_cube (m : Model DS) : Prop :=
  ∀ box_size vol cube,
    _box_size m = Some box_size → _volume m = Some vol →
    float_pow box_size 3 = inr cube → float_gt vol cube = false.

End Assignments.

Section Runs.

Context {DS Gals Kwargs : Type}.
Local Abbreviation World := (World DS Gals Kwargs).
Local Abbreviation Event := (Event DS Gals Kwargs).
Local Abbreviation CalcFn := (CalcFn DS Gals Kwargs).

(** The events of one turn of the loop over the files that returned:
    the request, and for a batch the print of the registry followed by
    one call per registry entry. *)
Definition file_block (cf : list (string * (CalcFn * Kwargs))) (snapshot : Z)
    (pbar : option Pbar) (debug : bool) (file_num : Z) (batch : option Gals)
    : list Event :=
  EvReadGals file_num snapshot pbar debug ::
  match batch with
  | None => []
  | Some gals =>
      EvPrintCalculationFunctions (keys cf) :: (calc_event gals snapshot <$> values cf)
  end.

(** The events of the statements after the loop, when they return. *)
Definition closing_events (close_file_flag debug : bool) : list Event :=
  (if close_file_flag then [EvCloseFile] else []) ++
  (if debug then [EvPrintDuration; EvPrint ""] else []).

(** The progress bar [calc_properties_all_files] hands to [read_gals]. *)
Definition chosen_pbar (tqdm_imported use_pbar debug : bool) (total : Z)
    : option Pbar :=
  if debug || negb use_pbar then None
  else if tqdm_imported then Some (mkPbar total) else None.

(** The event of opening it. *)
Definition pbar_events (pbar : option Pbar) : list Event :=
  match pbar with
  | Some pbar => [EvTqdm (pbar_total pbar)]
  | None => []
  end.

(** What the loop over the files does to the model when every call in
    it returns: each file is read on the model the turns before it left,
    and a batch is worked through by the registry entries in order.
    [loop_batches] are the batches [read_gals] hands out on the way (up
    to the first call of it that raises), [loop_model] is the model at
    the end. *)
Fixpoint loop_batches (dc : DataClass DS Gals) (cf : list (string * (CalcFn * Kwargs)))
    (snapshot : Z) (pbar : option Pbar) (debug : bool) (files : list Z)
    (m : Model DS) : list (option Gals) :=
  match files with
  | [] => []
  | file_num :: files =>
      match read_gals dc file_num snapshot pbar debug m with
      | Ok batch m' =>
          batch :: loop_batches dc cf snapshot pbar debug files
                     (match batch with
                      | Some gals => run_entries gals snapshot (values cf) m'
                      | None => m'
                      end)
      | Raise _ _ => []
      end
  end.

Fixpoint loop_model (dc : DataClass DS Gals) (cf : list (string * (CalcFn * Kwargs)))
    (snapshot : Z) (pbar : option Pbar) (debug : bool) (files : list Z)
    (m : Model DS) : Model DS :=
  match files with
  | [] => m
  | file_num :: files =>
      match read_gals dc file_num snapshot pbar debug m with
      | Ok batch m' =>
          loop_model dc cf snapshot pbar debug files
            (match batch with
             | Some gals => run_entries gals snapshot (values cf) m'
             | None => m'
             end)
      | Raise _ m' => m'
      end
  end.

(** An outcome without its trace. *)
Definition outcome {A} (r : Res World A) : Res (Model DS) A :=
  match r with
  | Ok a w => Ok a (model w)
  | Raise e w => Raise e (model w)
  end.

(** Two computations that, run on worlds with the same model, end alike
    with the same model, whatever the traces. *)
Definition agree {A} (c c' : M DS Gals Kwargs A) : Prop :=
  ∀ w w', model w = model w' → outcome (c w) = outcome (c' w').

End Runs.

(** * Further instances *)

Module Demo2.

Import Demo.

(** A data class that binds nothing on the model and has no batch. *)
Definition idle_data_class : DataClass DS Gals := {|
  update_snapshot_and_data_path snapshot m := Ok tt m;
  determine_num_gals snapshot m := Ok tt m;
  read_gals file_num snapshot pbar debug m := Ok None m;
  close_file m := Ok tt m
|}.

(** A model constructed for ["sage_hdf5"] without a file range. *)
Definition unbounded_model (files : DS) : Model DS :=
  mkModel "mini-millennium.ini" "Chabrier" None (Some "sage_hdf5")
    None None None [] [] 1000 (finite (-11 # 1)) ∅ ∅
    None None None None None None files.

End Demo2.
(** * Properties *)

(** ** Exact arithmetic of bin edges *)

Section Edges.

Local Open Scope Q_scope.

Lemma Qceiling_bounds (x : Q) :
  inject_Z (Qceiling x) - 1 < x ∧ x <= inject_Z (Qceiling x).
Proof.
  split; [|apply Qle_ceiling].
  pose proof (Qceiling_lt x) as H.
  unfold Z.sub in H. rewrite inject_Z_plus in H. exact H.
Qed.

Lemma Qdiv_mult_cancel (x y : Q) : ¬ y == 0 → x / y * y == x.
Proof. intros. field. done. Qed.

(** The number of edges [numpy.arange(lo, hi + width, width)] yields, and
    where the first and the last of them fall. *)
Lemma edge_count_bounds (lo hi width : Q) :
  0 < width → lo < hi →
  let c := Qceiling ((hi + width - lo) / width) in
  (2 <= c)%Z ∧
  (inject_Z c - 1) * width < hi + width - lo ∧
  hi + width - lo <= inject_Z c * width.
Proof.
  intros Hw Hlh c.
  destruct (Qceiling_bounds ((hi + width - lo) / width)) as [Hlt Hle].
  fold c in Hlt, Hle.
  assert (¬ width == 0) as Hne by lra.
  pose proof (Qdiv_mult_cancel (hi + width - lo) width Hne) as Hx.
  assert ((inject_Z c - 1) * width < (hi + width - lo) / width * width) as H1.
  { apply Qmult_lt_compat_r; [done|exact Hlt]. }
  assert ((hi + width - lo) / width * width <= inject_Z c * width) as H2.
  { apply Qmult_le_compat_r; [exact Hle|lra]. }
  rewrite Hx in H1, H2. split; [|split; assumption].
  assert (1 * width < inject_Z c * width) as H3 by lra.
  assert (inject_Z 1 < inject_Z c) as H4.
  { change (inject_Z 1) with 1. apply Qnot_le_lt. intros Hc.
    assert (inject_Z c * width <= 1 * width) by (apply Qmult_le_compat_r; [done|lra]).
    lra. }
  rewrite <- Zlt_Qlt in H4. lia.
Qed.

(** In exact arithmetic, a positive width and [lo < hi] give the edges
    [lo + i * width], [i = 0 .. n - 1], with [n = ceil((hi + width - lo) /
    width)]: at least two of them, all from [lo] up to but below [hi +
    width], the last one at or beyond [hi]. *)
Lemma exact_arange_edges (lo hi width : Q) :
  0 < width → lo < hi →
  let n := Z.to_nat (Qceiling ((hi + width - lo) / width)) in
  let edges := (λ i : nat, lo + inject_Z (Z.of_nat i) * width) <$> seq 0 n in
  np_arange (Numerics:=exact) (finite lo) (float_add (Numerics:=exact) (finite hi) (finite width))
    (finite width) = inr (finite <$> edges) ∧
  (2 ≤ length edges)%nat ∧
  (∀ e, e ∈ edges → lo <= e ∧ e < hi + width) ∧
  (∃ e, last edges = Some e ∧ hi <= e).
Proof.
  intros Hw Hlh n edges.
  destruct (edge_count_bounds lo hi width Hw Hlh) as (Hc & Hlo & Hhi).
  set (c := Qceiling ((hi + width - lo) / width)) in *.
  assert (length edges = n) as Hlen by (subst edges; by rewrite length_fmap, length_seq).
  assert (n = Z.to_nat c) as Hn by done.
  split_and!.
  - simpl. unfold exact_arange, arange_values, arange_len.
    destruct (Qeq_bool width 0) eqn:E.
    + apply Qeq_bool_eq in E. lra.
    + fold c. rewrite Z.max_r by lia. fold n. subst edges.
      by rewrite <- list_fmap_compose.
  - lia.
  - intros e He. subst edges.
    apply list_elem_of_fmap in He as (i & -> & Hi).
    apply elem_of_seq in Hi.
    assert (inject_Z (Z.of_nat i) <= inject_Z c - 1) as Hic.
    { replace (inject_Z c - 1) with (inject_Z c + inject_Z (-1)) by done.
      rewrite <- inject_Z_plus. rewrite <- Zle_Qle. lia. }
    assert (0 <= inject_Z (Z.of_nat i)) as Hi0.
    { change 0 with (inject_Z 0). rewrite <- Zle_Qle. lia. }
    assert (inject_Z (Z.of_nat i) * width <= (inject_Z c - 1) * width)
      by (apply Qmult_le_compat_r; [done|lra]).
    assert (0 <= inject_Z (Z.of_nat i) * width)
      by (apply Qmult_le_0_compat; [done|lra]).
    split; lra.
  - exists (lo + inject_Z (Z.of_nat (n - 1)) * width). split.
    + subst edges. rewrite fmap_last.
      replace n with (S (n - 1)) at 1 by lia.
      rewrite seq_S, last_snoc. done.
    + assert (inject_Z (Z.of_nat (n - 1)) == inject_Z c - 1) as ->.
      { replace (inject_Z c - 1) with (inject_Z c + inject_Z (-1)) by done.
        rewrite <- inject_Z_plus. rewrite inject_Z_injective. lia. }
      lra.
Qed.

End Edges.

(** ** Loops *)

Section Loops.

Context {DS Gals Kwargs : Type}.
Local Abbreviation M := (M DS Gals Kwargs).
Local Abbreviation World := (World DS Gals Kwargs).

Lemma for_nil {A} (body : A → M unit) w : for_ [] body w = Ok tt w.
Proof. reflexivity. Qed.

Lemma for_cons {A} (x : A) xs (body : A → M unit) w :
  for_ (x :: xs) body w =
    match body x w with
    | Ok _ w' => for_ xs body w'
    | Raise e w' => Raise e w'
    end.
Proof. reflexivity. Qed.

Lemma for_ext {A} (xs : list A) (f g : A → M unit) :
  (∀ x w, x ∈ xs → f x w = g x w) → ∀ w, for_ xs f w = for_ xs g w.
Proof.
  induction xs as [|x xs IH]; intros Hfg w; [done|].
  rewrite !for_cons, Hfg by left.
  destruct (g x w); [|done].
  apply IH. intros y w' Hy. apply Hfg. by right.
Qed.

(** An invariant that every turn keeps, whether it returns or raises, is
    kept by the loop. *)
Lemma for_invariant {A} (R : World → World → Prop) (xs : list A) (body : A → M unit) :
  (∀ w, R w w) →
  (∀ w1 w2 w3, R w1 w2 → R w2 w3 → R w1 w3) →
  (∀ x w, x ∈ xs → R w (state_of (body x w))) →
  ∀ w, R w (state_of (for_ xs body w)).
Proof.
  intros Hrefl Htrans. induction xs as [|x xs IH]; intros Hbody w.
  - apply Hrefl.
  - rewrite for_cons. pose proof (Hbody x w ltac:(left)) as Hx.
    destruct (body x w) as [[] w'|e w']; simpl in *; [|done].
    eapply Htrans; [exact Hx|]. apply IH. intros y w0 Hy. apply Hbody. by right.
Qed.

End Loops.

(** ** The property store *)

Section Store.

Context {DS Gals Kwargs : Type}.
Local Abbreviation M := (M DS Gals Kwargs).
Local Abbreviation World := (World DS Gals Kwargs).

Lemma properties_setitem_run key name v (w : World) :
  properties_setitem key name v w =
    Ok tt (mkWorld (with_properties (store_set key name v (_properties (model w))) (model w))
             (trace w)).
Proof.
  unfold properties_setitem, modify, store_set, defaultdict_getitem.
  destruct (_properties (model w) !! key) eqn:E; simpl; [done|].
  by rewrite insert_insert_eq.
Qed.

Lemma store_set_other_key key name v d key' :
  key' ≠ key → store_set key name v d !! key' = d !! key'.
Proof. intros. unfold store_set. by rewrite lookup_insert_ne. Qed.

Lemma accumulator_store_set key name v d key' name' :
  accumulator (store_set key name v d) key' name' =
    if decide (key' = key ∧ name' = name) then Some v else accumulator d key' name'.
Proof.
  unfold accumulator, store_set.
  destruct (decide (key' = key)) as [->|Hk].
  - rewrite lookup_insert_eq. simpl.
    destruct (decide (name' = name)) as [->|Hn].
    + rewrite lookup_insert_eq. by rewrite decide_True.
    + rewrite lookup_insert_ne by done. rewrite decide_False by naive_solver.
      by destruct (d !! key).
  - rewrite lookup_insert_ne by done. by rewrite decide_False by naive_solver.
Qed.

Lemma with_stores_id (m : Model DS) :
  with_bins (_bins m) (with_properties (_properties m) m) = m.
Proof. by destruct m. Qed.

Lemma init_frame_refl key names bin (w : World) : init_frame key names bin w w.
Proof. unfold init_frame. by rewrite with_stores_id. Qed.

Lemma init_frame_trans key names bin (w1 w2 w3 : World) :
  init_frame key names bin w1 w2 → init_frame key names bin w2 w3 →
  init_frame key names bin w1 w3.
Proof.
  intros (Ht1 & Hm1 & Hk1 & Ha1 & Hb1) (Ht2 & Hm2 & Hk2 & Ha2 & Hb2).
  repeat split.
  - congruence.
  - rewrite Hm2 at 1. rewrite Hm1 at 1. done.
  - intros k Hk. rewrite Hk2, Hk1; done.
  - intros k p Hkp. rewrite Ha2, Ha1; done.
  - intros b Hb. rewrite Hb2, Hb1; done.
Qed.

Lemma properties_setitem_frame key names bin name v (w : World) :
  name ∈ names →
  init_frame key names bin w (state_of (properties_setitem key name v w)).
Proof.
  intros Hin. rewrite properties_setitem_run. simpl. repeat split.
  - intros k Hk. simpl. by apply store_set_other_key.
  - intros k p Hkp. simpl. rewrite accumulator_store_set.
    rewrite decide_False; [done|]. intros [-> ->]. naive_solver.
Qed.

Lemma for_setitem_frame key names bin (body : string → M unit) (w : World) :
  (∀ p w0, (∃ e, body p w0 = Raise e w0) ∨
           (∃ v, body p w0 = properties_setitem key p v w0)) →
  init_frame key names bin w (state_of (for_ names body w)).
Proof.
  intros Hbody. apply for_invariant.
  - apply init_frame_refl.
  - apply init_frame_trans.
  - intros p w0 Hp. destruct (Hbody p w0) as [[e ->]|[v ->]].
    + apply init_frame_refl.
    + by apply properties_setitem_frame.
Qed.

(** The loop shared by the three initialisers when the value to store is
    known: it returns, and afterwards exactly the names of the list hold
    the value. *)
Lemma for_setitem_run key v (names : list string) (w : World) :
  ∃ w', for_ names (λ p, properties_setitem key p v) w = Ok tt w' ∧
        _bins (model w') = _bins (model w) ∧
        ∀ k p, accumulator (_properties (model w')) k p =
                 if decide (k = key ∧ p ∈ names) then Some v
                 else accumulator (_properties (model w)) k p.
Proof.
  revert w. induction names as [|n names IH]; intros w.
  - exists w. split; [done|]. split; [done|]. intros k p.
    rewrite decide_False; [done|]. intros [_ H]. by apply elem_of_nil in H.
  - rewrite for_cons, properties_setitem_run.
    destruct (IH (mkWorld (with_properties
                (store_set key n v (_properties (model w))) (model w)) (trace w)))
      as (w' & Hrun & Hbins & Hacc).
    exists w'. split; [done|]. split; [by rewrite Hbins|].
    intros k p. rewrite Hacc. simpl. rewrite accumulator_store_set.
    repeat case_decide; try done; exfalso.
    + destruct_and!. set_solver.
    + destruct_and!. subst. set_solver.
    + destruct_and!. subst. set_solver.
Qed.

End Store.

(** ** The initialisers *)

Section Initialisers.

Context {DS Gals Kwargs : Type} {num : Numerics}.
Local Abbreviation M := (M DS Gals Kwargs).
Local Abbreviation World := (World DS Gals Kwargs).

Lemma init_binned_properties_frame (bin_low bin_high bin_width : float)
    (bin_name : string) (property_names : list string) (snapshot : Z) (w : World) :
  init_frame (snapshot_key snapshot) property_names (Some bin_name) w
    (state_of (init_binned_properties bin_low bin_high bin_width bin_name
                 property_names snapshot w)).
Proof.
  unfold init_binned_properties, lift_exn. unfold_M.
  destruct (np_arange _ _ _) as [e|bins]; simpl; [apply init_frame_refl|].
  set (w1 := mkWorld _ _).
  assert (init_frame (snapshot_key snapshot) property_names (Some bin_name) w w1)
    as Hw1.
  { subst w1. repeat split; simpl.
    intros b Hb. rewrite lookup_insert_ne; [done|congruence]. }
  eapply init_frame_trans; [exact Hw1|].
  apply for_setitem_frame. intros p w0. simpl.
  destruct (np_zeros _) as [e|v]; simpl; eauto.
Qed.

Lemma init_scatter_properties_frame (property_names : list string) (snapshot : Z)
    (w : World) :
  init_frame (snapshot_key snapshot) property_names None w
    (state_of (init_scatter_properties property_names snapshot w)).
Proof. apply for_setitem_frame. eauto. Qed.

Lemma init_single_properties_frame (property_names : list string) (snapshot : Z)
    (w : World) :
  init_frame (snapshot_key snapshot) property_names None w
    (state_of (init_single_properties property_names snapshot w)).
Proof. apply for_setitem_frame. eauto. Qed.

(** C10.  Each of the three initialisers, called for snapshot [snapshot]
    and the names [property_names], changes nothing but the accumulators
    [(snapshot, p)] with [p] in [property_names] (and, for the binned one,
    the entry [bin_name] of the bin registry): the accumulators of every
    other snapshot key, the other properties of this snapshot, the other
    bins and all other attributes are as before, whether the call returns
    or raises. *)
Theorem init_properties_frame (bin_low bin_high bin_width : float) (bin_name : string)
    (property_names : list string) (snapshot : Z) (w : World) :
  init_frame (snapshot_key snapshot) property_names (Some bin_name) w
    (state_of (init_binned_properties bin_low bin_high bin_width bin_name
                 property_names snapshot w)) ∧
  init_frame (snapshot_key snapshot) property_names None w
    (state_of (init_scatter_properties property_names snapshot w)) ∧
  init_frame (snapshot_key snapshot) property_names None w
    (state_of (init_single_properties property_names snapshot w)).
Proof.
  split_and!.
  - apply init_binned_properties_frame.
  - apply init_scatter_properties_frame.
  - apply init_single_properties_frame.
Qed.


(** *** Reading the store *)

Lemma snapshot_key_inj (s1 s2 : Z) : snapshot_key s1 = snapshot_key s2 → s1 = s2.
Proof.
  unfold snapshot_key. intros H. simpl in H.
  injection H as H. by apply (inj pretty).
Qed.

(** A call that does not initialise [(snapshot, name)] leaves that
    accumulator as it is; one for another snapshot leaves the mapping of
    [snapshot] as it is. *)
Lemma run_init_frame (c : init_call) (w : World) :
  (∀ k p, k ≠ snapshot_key (init_snapshot c) ∨ p ∉ init_names c →
     accumulator (_properties (model (state_of (run_init c w)))) k p
       = accumulator (_properties (model w)) k p) ∧
  (∀ k, k ≠ snapshot_key (init_snapshot c) →
     _properties (model (state_of (run_init c w))) !! k = _properties (model w) !! k).
Proof.
  destruct c as [lo hi width bin names s|names s|names s]; simpl.
  - destruct (init_binned_properties_frame lo hi width bin names s w)
      as (_ & _ & Hk & Ha & _). by split.
  - destruct (init_scatter_properties_frame names s w) as (_ & _ & Hk & Ha & _).
    by split.
  - destruct (init_single_properties_frame names s w) as (_ & _ & Hk & Ha & _).
    by split.
Qed.

Lemma after_inits_accumulator (cs : list init_call) (snapshot : Z) (name : string)
    (w : World) :
  Forall (λ c, ¬ (init_snapshot c = snapshot ∧ name ∈ init_names c)) cs →
  accumulator (_properties (model (after_inits cs w))) (snapshot_key snapshot) name
    = accumulator (_properties (model w)) (snapshot_key snapshot) name.
Proof.
  unfold after_inits. revert w.
  induction cs as [|c cs IH]; intros w Hcs; [done|].
  apply Forall_cons in Hcs as [Hc Hcs]. simpl. rewrite IH by done.
  apply run_init_frame.
  destruct (decide (name ∈ init_names c)); [left|by right].
  intros Hk. apply snapshot_key_inj in Hk. naive_solver.
Qed.

Lemma after_inits_snapshot (cs : list init_call) (snapshot : Z) (w : World) :
  Forall (λ c, init_snapshot c ≠ snapshot) cs →
  _properties (model (after_inits cs w)) !! snapshot_key snapshot
    = _properties (model w) !! snapshot_key snapshot.
Proof.
  unfold after_inits. revert w.
  induction cs as [|c cs IH]; intros w Hcs; [done|].
  apply Forall_cons in Hcs as [Hc Hcs]. simpl. rewrite IH by done.
  apply run_init_frame. intros Hk. by apply snapshot_key_inj in Hk.
Qed.

Lemma properties_getitem2_missing (key name : string) (w : World) :
  accumulator (_properties (model w)) key name = None →
  properties_getitem2 key name w =
    Raise (KeyError name)
      (mkWorld (with_properties
                  (snd (defaultdict_getitem key (_properties (model w)))) (model w))
         (trace w)).
Proof.
  unfold accumulator, properties_getitem2, properties_getitem, defaultdict_getitem.
  unfold_M. intros Hacc.
  destruct (_properties (model w) !! key) as [inner|] eqn:E; simpl in *.
  - by rewrite Hacc.
  - by rewrite lookup_empty.
Qed.

Lemma properties_getitem_missing (key : string) (w : World) :
  _properties (model w) !! key = None →
  properties_getitem key w =
    Ok ∅ (mkWorld (with_properties (<[key := ∅]> (_properties (model w))) (model w))
            (trace w)).
Proof.
  unfold properties_getitem, defaultdict_getitem. by intros ->.
Qed.

(** C3, as the code has it.  After construction ([_properties] empty) and
    any calls of the initialisers none of which initialised [(snapshot,
    name)], reading [properties[f"snapshot_{snapshot}"][name]] raises
    [KeyError(name)].  Reading [properties[f"snapshot_{snapshot}"]] alone,
    when no initialiser was called for that snapshot, does not raise: the
    [defaultdict] returns an empty mapping and binds the key to it. *)
Theorem properties_read_never_initialised (cs : list init_call) (snapshot : Z)
    (name : string) (w : World) :
  _properties (model w) = ∅ →
  Forall (λ c, ¬ (init_snapshot c = snapshot ∧ name ∈ init_names c)) cs →
  (∃ w', properties_getitem2 (snapshot_key snapshot) name (after_inits cs w)
           = Raise (KeyError name) w') ∧
  (Forall (λ c, init_snapshot c ≠ snapshot) cs →
   ∃ w', properties_getitem (snapshot_key snapshot) (after_inits cs w) = Ok ∅ w' ∧
         _properties (model w') !! snapshot_key snapshot = Some ∅).
Proof.
  intros Hempty Hcs. split.
  - eexists. apply properties_getitem2_missing.
    rewrite after_inits_accumulator by done.
    unfold accumulator. by rewrite Hempty, lookup_empty.
  - intros Hsnap. eexists. split.
    + apply properties_getitem_missing.
      rewrite after_inits_snapshot by done. by rewrite Hempty, lookup_empty.
    + simpl. by rewrite lookup_insert_eq.
Qed.

End Initialisers.

(** ** Validating setters *)

Section Setters.

Context {DS Gals Kwargs : Type} {num : Numerics}.
Local Abbreviation M := (M DS Gals Kwargs).
Local Abbreviation World := (World DS Gals Kwargs).

Lemma volume_setter_run (vol box_size : float) (w : World) :
  _box_size (model w) = Some box_size →
  volume_setter vol w =
    match float_pow box_size 3 with
    | inl e => Raise e w
    | inr cube =>
        if float_gt vol cube then
          Raise (ValueError "")
            (mkWorld (model w)
               ((trace w ++ [EvPrint "The volume analyzed by a model cannot exceed the volume of the box itself.  Error was encountered for the following model."])
                  ++ [EvPrint (__repr__ (model w))]))
        else Ok tt (mkWorld (with_volume (Some vol) (model w)) (trace w))
    end.
Proof.
  intros Hb. unfold volume_setter, lift_exn. unfold_M. rewrite Hb.
  destruct (float_pow box_size 3) as [e|cube]; [done|]. simpl.
  by destruct (float_gt vol cube).
Qed.

(** C6, as the code has it.  On a model whose [box_size] is bound and
    for which [pow(box_size, 3)] returns, assigning [vol] to [volume]
    raises exactly when [vol > pow(box_size, 3)], as [>] on floats and
    [pow] have it; a raising assignment raises [ValueError] and leaves the
    model, and so the stored volume, as it was; a returning one stores
    [vol]; and the value of [pow(box_size, 3)] itself is accepted, [>]
    being irreflexive.  When [pow(box_size, 3)] raises instead (it
    overflows for large box sizes), every assignment raises that
    exception and changes nothing. *)
Theorem volume_setter_spec (vol box_size : float) (w : World) :
  _box_size (model w) = Some box_size →
  (∀ cube, float_pow box_size 3 = inr cube →
     ((∃ e w', volume_setter vol w = Raise e w') ↔ float_gt vol cube = true) ∧
     (∀ e w', volume_setter vol w = Raise e w' →
        e = ValueError "" ∧ model w' = model w ∧
        _volume (model w') = _volume (model w)) ∧
     (∀ a w', volume_setter vol w = Ok a w' →
        _volume (model w') = Some vol ∧
        w' = mkWorld (with_volume (Some vol) (model w)) (trace w)) ∧
     (float_gt cube cube = false → is_ok (volume_setter cube w) = true)) ∧
  (∀ e, float_pow box_size 3 = inl e → volume_setter vol w = Raise e w).
Proof.
  intros Hb. split.
  - intros cube Hcube. rewrite (volume_setter_run vol box_size w Hb), Hcube.
    split_and!.
    + destruct (float_gt vol cube); split; eauto; try discriminate.
      intros (e & w' & H). discriminate.
    + destruct (float_gt vol cube); [|discriminate]. by intros e w' [= <- <-].
    + destruct (float_gt vol cube); [discriminate|]. by intros [] w' [= <-].
    + intros Hirr. by rewrite (volume_setter_run cube box_size w Hb), Hcube, Hirr.
  - intros e He. by rewrite (volume_setter_run vol box_size w Hb), He.
Qed.

(** C7.  Assigning to [IMF] raises exactly when the value is neither
    ["Chabrier"] nor ["Salpeter"]; a raising assignment changes nothing,
    a returning one stores the value. *)
Theorem IMF_setter_spec (IMF : string) (w : World) :
  ((∃ e w', IMF_setter IMF w = Raise e w') ↔ (IMF ≠ "Chabrier" ∧ IMF ≠ "Salpeter")) ∧
  (∀ e w', IMF_setter IMF w = Raise e w' →
     (∃ msg, e = ValueError msg) ∧ w' = w ∧ _IMF (model w') = _IMF (model w)) ∧
  (∀ a w', IMF_setter IMF w = Ok a w' →
     _IMF (model w') = IMF ∧ w' = mkWorld (with_IMF IMF (model w)) (trace w)).
Proof.
  unfold IMF_setter, allowed_IMF. unfold_M.
  case_bool_decide as Hin.
  - assert (IMF ≠ "Chabrier" ∧ IMF ≠ "Salpeter") by set_solver.
    split_and!.
    + split; eauto.
    + intros e w' [= <- <-]. eauto.
    + discriminate.
  - assert (IMF = "Chabrier" ∨ IMF = "Salpeter") as Hor.
    { set_solver. }
    split_and!.
    + split; [intros (e & w' & H); discriminate | naive_solver].
    + discriminate.
    + by intros [] w' [= <-].
Qed.

End Setters.

(** ** The driver *)

Section Driver.

Context {DS Gals Kwargs : Type}.
Local Abbreviation M := (M DS Gals Kwargs).
Local Abbreviation World := (World DS Gals Kwargs).
Local Abbreviation Event := (Event DS Gals Kwargs).
Local Abbreviation CalcFn := (CalcFn DS Gals Kwargs).

Lemma call_run {A} (ev : Event) (f : Ext DS A) (w : World) :
  call ev f w =
    match f (model w) with
    | Ok a m' => Ok a (mkWorld m' (trace w ++ [ev]))
    | Raise e m' => Raise e (mkWorld m' (trace w ++ [ev]))
    end.
Proof. reflexivity. Qed.

(** *** [calc_properties] *)

Lemma calc_properties_nil (gals : Gals) (snapshot : Z) (w : World) :
  calc_properties [] gals snapshot w = Ok tt w.
Proof. reflexivity. Qed.

Lemma calc_properties_cons name func kwargs cf (gals : Gals) (snapshot : Z) (w : World) :
  calc_properties ((name, (func, kwargs)) :: cf) gals snapshot w =
    match func (model w) gals snapshot kwargs with
    | Ok _ m' =>
        calc_properties cf gals snapshot
          (mkWorld m' (trace w ++ [EvCalc func gals snapshot kwargs]))
    | Raise e m' => Raise e (mkWorld m' (trace w ++ [EvCalc func gals snapshot kwargs]))
    end.
Proof.
  change (calc_properties ((name, (func, kwargs)) :: cf) gals snapshot w) with
    (match call (EvCalc func gals snapshot kwargs)
             (λ self, func self gals snapshot kwargs) w with
     | Ok _ w' => calc_properties cf gals snapshot w'
     | Raise e w' => Raise e w'
     end).
  rewrite call_run. by destruct (func (model w) gals snapshot kwargs).
Qed.

Lemma calc_properties_returned cf (gals : Gals) (snapshot : Z) (w w' : World) :
  calc_properties cf gals snapshot w = Ok tt w' →
  trace w' = trace w ++ (calc_event gals snapshot <$> values cf) ∧
  model w' = run_entries gals snapshot (values cf) (model w).
Proof.
  revert w. induction cf as [|[name [func kwargs]] cf IH]; intros w.
  - rewrite calc_properties_nil. intros [= <-]. by rewrite app_nil_r.
  - rewrite calc_properties_cons.
    destruct (func (model w) gals snapshot kwargs) as [[] m'|e m'] eqn:E; [|done].
    intros H. apply IH in H as [Ht Hm]. simpl in *. split.
    + by rewrite Ht, <- app_assoc.
    + rewrite Hm. unfold run_entries. simpl. by rewrite E.
Qed.

Lemma calc_properties_returns cf (gals : Gals) (snapshot : Z) (w : World) :
  Forall (λ entry, ∀ m : Model DS, is_ok (entry.1 m gals snapshot entry.2) = true)
    (values cf) →
  is_ok (calc_properties cf gals snapshot w) = true.
Proof.
  revert w. induction cf as [|[name [func kwargs]] cf IH]; intros w Hall; [done|].
  apply Forall_cons in Hall as [Hf Hall]. rewrite calc_properties_cons.
  specialize (Hf (model w)). simpl in Hf.
  destruct (func (model w) gals snapshot kwargs); [|done]. by apply IH.
Qed.

(** Whether it returns or raises, [calc_properties] has called a prefix of
    the registry, in order, and nothing else. *)
Lemma calc_properties_trace cf (gals : Gals) (snapshot : Z) (w : World) :
  ∃ n, trace (state_of (calc_properties cf gals snapshot w))
       = trace w ++ (calc_event gals snapshot <$> take n (values cf)).
Proof.
  revert w. induction cf as [|[name [func kwargs]] cf IH]; intros w.
  - exists 0%nat. simpl. by rewrite app_nil_r.
  - rewrite calc_properties_cons.
    destruct (func (model w) gals snapshot kwargs) as [[] m'|e m'].
    + destruct (IH (mkWorld m' (trace w ++ [EvCalc func gals snapshot kwargs])))
        as [n Hn].
      exists (S n). rewrite Hn. simpl. by rewrite <- app_assoc.
    + exists 1%nat. simpl. by destruct (values cf).
Qed.

Lemma calc_calls_app (tr1 tr2 : list Event) :
  calc_calls (tr1 ++ tr2) = calc_calls tr1 ++ calc_calls tr2.
Proof. apply omap_app. Qed.

Lemma calc_calls_calc_event (gals : Gals) (snapshot : Z) (l : list (CalcFn * Kwargs)) :
  calc_calls (calc_event gals snapshot <$> l)
    = (λ entry, (entry.1, gals, snapshot, entry.2)) <$> l.
Proof.
  induction l as [|[f kw] l IH]; [done|].
  change (calc_calls (calc_event gals snapshot <$> (f, kw) :: l))
    with ((f, gals, snapshot, kw) :: calc_calls (calc_event gals snapshot <$> l)).
  by rewrite IH.
Qed.

(** C9.  When [calc_properties] returns, it has called every entry of the
    registry once, in the order of the registry, as [func(model, gals,
    snapshot, **kwargs)], each on the model the previous one left; and it
    does return whenever the registered functions do. *)
Theorem calc_properties_spec cf (gals : Gals) (snapshot : Z) (w : World) :
  (∀ w', calc_properties cf gals snapshot w = Ok tt w' →
     trace w' = trace w ++ ((λ entry, EvCalc entry.1 gals snapshot entry.2) <$> values cf) ∧
     calc_calls (trace w') =
       calc_calls (trace w) ++ ((λ entry, (entry.1, gals, snapshot, entry.2)) <$> values cf) ∧
     model w' = run_entries gals snapshot (values cf) (model w)) ∧
  (Forall (λ entry, ∀ m : Model DS, is_ok (entry.1 m gals snapshot entry.2) = true)
     (values cf) →
   is_ok (calc_properties cf gals snapshot w) = true).
Proof.
  split; [|apply calc_properties_returns].
  intros w' H. apply calc_properties_returned in H as [Ht Hm].
  split_and!; [done| |done].
  by rewrite Ht, calc_calls_app, calc_calls_calc_event.
Qed.

(** *** Projections of a trace *)

Lemma read_requests_app (tr1 tr2 : list Event) :
  read_requests (tr1 ++ tr2) = read_requests tr1 ++ read_requests tr2.
Proof. apply omap_app. Qed.

Lemma close_calls_app (tr1 tr2 : list Event) :
  close_calls (tr1 ++ tr2) = (close_calls tr1 + close_calls tr2)%nat.
Proof. unfold close_calls. by rewrite omap_app, length_app. Qed.

Lemma pbars_opened_app (tr1 tr2 : list Event) :
  pbars_opened (tr1 ++ tr2) = (pbars_opened tr1 + pbars_opened tr2)%nat.
Proof. unfold pbars_opened. by rewrite omap_app, length_app. Qed.

Lemma batch_events_silent (new : list Event) :
  Forall batch_event new →
  read_requests new = [] ∧ close_calls new = 0%nat ∧ pbars_opened new = 0%nat.
Proof.
  induction 1 as [|ev new Hev _ (IH1 & IH2 & IH3)]; [done|].
  destruct ev; try done.
Qed.

Lemma calc_properties_extends cf (gals : Gals) (snapshot : Z) (w : World) :
  ∃ new, trace (state_of (calc_properties cf gals snapshot w)) = trace w ++ new ∧
         Forall batch_event new.
Proof.
  destruct (calc_properties_trace cf gals snapshot w) as [n Hn].
  eexists. split; [exact Hn|].
  apply Forall_fmap, Forall_true. by intros [f kw].
Qed.

End Driver.

(** ** [calc_properties_all_files] *)

Section AllFiles.

Context {DS Gals Kwargs : Type}.
Local Abbreviation M := (M DS Gals Kwargs).
Local Abbreviation World := (World DS Gals Kwargs).
Local Abbreviation Event := (Event DS Gals Kwargs).
Local Abbreviation CalcFn := (CalcFn DS Gals Kwargs).

Context (dc : DataClass DS Gals) (tqdm_imported : bool).

Implicit Types (cf : list (string * (CalcFn * Kwargs))) (w : World).

(** *** One turn of the loop *)

Lemma file_step_skip cf snapshot pbar debug file_num w m' :
  read_gals dc file_num snapshot pbar debug (model w) = Ok None m' →
  file_step dc cf snapshot pbar debug file_num w
    = Ok tt (mkWorld m' (trace w ++ [EvReadGals file_num snapshot pbar debug])).
Proof. intros H. unfold file_step. unfold_M. by rewrite H. Qed.

Lemma file_step_batch cf snapshot pbar debug file_num w gals m' :
  read_gals dc file_num snapshot pbar debug (model w) = Ok (Some gals) m' →
  file_step dc cf snapshot pbar debug file_num w
    = calc_properties cf gals snapshot
        (mkWorld m' ((trace w ++ [EvReadGals file_num snapshot pbar debug])
                       ++ [EvPrintCalculationFunctions (keys cf)])).
Proof. intros H. unfold file_step. unfold_M. by rewrite H. Qed.

Lemma file_step_raise cf snapshot pbar debug file_num w e m' :
  read_gals dc file_num snapshot pbar debug (model w) = Raise e m' →
  file_step dc cf snapshot pbar debug file_num w
    = Raise e (mkWorld m' (trace w ++ [EvReadGals file_num snapshot pbar debug])).
Proof. intros H. unfold file_step. unfold_M. by rewrite H. Qed.

(** A turn asks for its file, then only prints the registry and calls
    calculation functions. *)
Lemma file_step_trace cf snapshot pbar debug file_num w :
  ∃ new, trace (state_of (file_step dc cf snapshot pbar debug file_num w))
           = trace w ++ EvReadGals file_num snapshot pbar debug :: new ∧
         Forall batch_event new.
Proof.
  destruct (read_gals dc file_num snapshot pbar debug (model w))
    as [[gals|] m'|e m'] eqn:E.
  - rewrite (file_step_batch _ _ _ _ _ _ _ _ E).
    destruct (calc_properties_extends cf gals snapshot
                (mkWorld m' ((trace w ++ [EvReadGals file_num snapshot pbar debug])
                       ++ [EvPrintCalculationFunctions (keys cf)])))
      as (new & Hnew & Hall).
    exists (EvPrintCalculationFunctions (keys cf) :: new). split.
    + rewrite Hnew. simpl. by rewrite <- !app_assoc.
    + by constructor.
  - rewrite (file_step_skip _ _ _ _ _ _ _ E). by exists [].
  - rewrite (file_step_raise _ _ _ _ _ _ _ _ E). by exists [].
Qed.

(** *** The loop over the files *)

Lemma files_loop_trace cf snapshot pbar debug (files : list Z) w :
  let r := for_ files (file_step dc cf snapshot pbar debug) w in
  ∃ k, read_requests (trace (state_of r)) = read_requests (trace w) ++ take k files ∧
       (is_ok r = true → k = length files) ∧
       close_calls (trace (state_of r)) = close_calls (trace w) ∧
       pbars_opened (trace (state_of r)) = pbars_opened (trace w).
Proof.
  revert w. induction files as [|f files IH]; intros w; simpl.
  - exists 0%nat. by rewrite app_nil_r.
  - unfold_M.
    destruct (file_step_trace cf snapshot pbar debug f w) as (new & Hnew & Hall).
    destruct (batch_events_silent new Hall) as (Hr & Hc & Hp).
    assert (read_requests (trace (state_of (file_step dc cf snapshot pbar debug f w)))
            = read_requests (trace w) ++ [f]) as Hreads.
    { rewrite Hnew, read_requests_app.
      change (read_requests (EvReadGals f snapshot pbar debug :: new))
        with (f :: read_requests new). by rewrite Hr. }
    assert (close_calls (trace (state_of (file_step dc cf snapshot pbar debug f w)))
            = close_calls (trace w)) as Hclose.
    { rewrite Hnew, close_calls_app.
      change (close_calls (EvReadGals f snapshot pbar debug :: new))
        with (close_calls new). lia. }
    assert (pbars_opened (trace (state_of (file_step dc cf snapshot pbar debug f w)))
            = pbars_opened (trace w)) as Hpbar.
    { rewrite Hnew, pbars_opened_app.
      change (pbars_opened (EvReadGals f snapshot pbar debug :: new))
        with (pbars_opened new). lia. }
    destruct (file_step dc cf snapshot pbar debug f w) as [[] w1|e w1]; simpl in *.
    + destruct (IH w1) as (k & Hk & Hok & Hkc & Hkp).
      exists (S k). split_and!.
      * rewrite Hk, Hreads. simpl. by rewrite <- app_assoc.
      * intros H. by rewrite Hok.
      * by rewrite Hkc.
      * by rewrite Hkp.
    + exists 1%nat. by split_and!.
Qed.

(** *** The whole call *)

Lemma mbind_run {A B} (c : M A) (k : A → M B) w :
  (c ≫= k) w = match c w with Ok a w' => k a w' | Raise e w' => Raise e w' end.
Proof. reflexivity. Qed.

Lemma make_pbar_run use_pbar debug w n :
  _num_gals_all_files (model w) = Some n →
  ∃ pbar new,
    make_pbar tqdm_imported use_pbar debug w
      = Ok pbar (mkWorld (model w) (trace w ++ new)) ∧
    (new = [] ∨ new = [EvTqdm n]).
Proof.
  intros Hn. unfold make_pbar.
  destruct (debug || negb use_pbar); [|destruct tqdm_imported].
  - exists None, []. rewrite app_nil_r. destruct w. eauto.
  - exists (Some (mkPbar n)), [EvTqdm n]. unfold_M. rewrite Hn. eauto.
  - exists None, []. rewrite app_nil_r. destruct w. eauto.
Qed.

(** The statements after the loop. *)
Lemma epilogue_trace (close_file_flag debug : bool) w :
  let r := ((if close_file_flag then call EvCloseFile (close_file dc) else mret tt);;
            if debug then emit EvPrintDuration;; emit (EvPrint "") else mret tt) w in
  read_requests (trace (state_of r)) = read_requests (trace w) ∧
  (is_ok r = true →
   close_calls (trace (state_of r))
     = (close_calls (trace w) + if close_file_flag then 1 else 0)%nat).
Proof.
  simpl. rewrite mbind_run. destruct close_file_flag.
  - rewrite call_run. destruct (close_file dc (model w)) as [[] m'|e m'].
    + destruct debug; unfold_M; simpl;
        rewrite ?read_requests_app, ?close_calls_app; simpl;
        rewrite ?app_nil_r; split; try done; intros _; unfold close_calls; simpl; lia.
    + simpl. rewrite read_requests_app. simpl. by rewrite app_nil_r.
  - destruct debug; unfold_M; simpl;
      rewrite ?read_requests_app, ?close_calls_app; simpl;
      rewrite ?app_nil_r; split; try done; intros _; unfold close_calls; simpl; lia.
Qed.

(** With no galaxies, the call logs, prints the count and returns. *)
Lemma calc_properties_all_files_empty cf snapshot close_file_flag use_pbar debug
    w m1 m2 snap :
  update_snapshot_and_data_path dc snapshot (model w) = Ok tt m1 →
  determine_num_gals dc snapshot m1 = Ok tt m2 →
  _num_gals_all_files m2 = Some 0 →
  _snapshot m2 = Some snap →
  calc_properties_all_files dc tqdm_imported cf snapshot close_file_flag use_pbar debug w =
    Ok tt (mkWorld m2
             (trace w ++
                [EvUpdateSnapshot snapshot; EvDetermineNumGals snapshot;
                 EvLogInfo ("There were no galaxies associated with this model at Snapshot "
                            +:+ pretty snap +:+ ".");
                 EvPrint "0"])).
Proof.
  intros H1 H2 H3 H4. unfold calc_properties_all_files.
  rewrite mbind_run, call_run, H1. rewrite mbind_run, call_run. simpl. rewrite H2.
  unfold_M. simpl. rewrite H3. simpl. rewrite H4. simpl.
  by rewrite <- !app_assoc.
Qed.

(** With galaxies, the call is the loop over [range(first, last + 1)]
    followed by the closing statements, started from the world the two
    data class calls and the progress bar left. *)
Lemma calc_properties_all_files_loop cf snapshot close_file_flag use_pbar debug
    w m1 m2 n first last :
  update_snapshot_and_data_path dc snapshot (model w) = Ok tt m1 →
  determine_num_gals dc snapshot m1 = Ok tt m2 →
  _num_gals_all_files m2 = Some n → n ≠ 0 →
  _first_file_to_analyze m2 = Some first →
  _last_file_to_analyze m2 = Some last →
  ∃ pbar new,
    (new = [] ∨ new = [EvTqdm n]) ∧
    calc_properties_all_files dc tqdm_imported cf snapshot close_file_flag use_pbar debug w =
      (for_ (seqZ first (last + 1 - first)) (file_step dc cf snapshot pbar debug);;
       (if close_file_flag then call EvCloseFile (close_file dc) else mret tt);;
       if debug then emit EvPrintDuration;; emit (EvPrint "") else mret tt)
        (mkWorld m2
           (trace w ++ [EvUpdateSnapshot snapshot; EvDetermineNumGals snapshot] ++ new)).
Proof.
  intros H1 H2 H3 Hn Hfirst Hlast.
  unfold calc_properties_all_files.
  rewrite mbind_run, call_run, H1. rewrite mbind_run, call_run. simpl. rewrite H2.
  rewrite mbind_run. unfold getattr at 1. simpl. rewrite H3.
  rewrite (proj2 (Z.eqb_neq n 0) Hn).
  set (w2 := mkWorld m2 _).
  destruct (make_pbar_run use_pbar debug w2 n H3) as (pbar & new & Hpbar & Hnew).
  exists pbar, new. split; [done|].
  rewrite mbind_run, Hpbar. rewrite mbind_run. unfold file_range at 1. simpl.
  rewrite Hfirst, Hlast. unfold py_range. by rewrite <- !app_assoc.
Qed.

(** With galaxies, the call asks for a prefix of the files in order, all
    of them when it returns, and then closes as the flag says. *)
Lemma calc_properties_all_files_trace cf snapshot close_file_flag use_pbar debug
    w m1 m2 n first last :
  update_snapshot_and_data_path dc snapshot (model w) = Ok tt m1 →
  determine_num_gals dc snapshot m1 = Ok tt m2 →
  _num_gals_all_files m2 = Some n → n ≠ 0 →
  _first_file_to_analyze m2 = Some first →
  _last_file_to_analyze m2 = Some last →
  let r := calc_properties_all_files dc tqdm_imported cf snapshot close_file_flag use_pbar debug w in
  ∃ k, read_requests (trace (state_of r))
         = read_requests (trace w) ++ take k (seqZ first (last + 1 - first)) ∧
       (is_ok r = true →
        k = length (seqZ first (last + 1 - first)) ∧
        close_calls (trace (state_of r))
          = (close_calls (trace w) + if close_file_flag then 1 else 0)%nat).
Proof.
  intros H1 H2 H3 Hn Hfirst Hlast r.
  destruct (calc_properties_all_files_loop cf snapshot close_file_flag use_pbar debug
              w m1 m2 n first last H1 H2 H3 Hn Hfirst Hlast)
    as (pbar & new & Hnew & Hrun).
  subst r. rewrite Hrun. clear Hrun.
  set (w3 := mkWorld m2 _).
  assert (read_requests (trace w3) = read_requests (trace w) ∧
          close_calls (trace w3) = close_calls (trace w)) as [Hr3 Hc3].
  { subst w3. simpl. rewrite !read_requests_app, !close_calls_app.
    destruct Hnew as [-> | ->]; simpl; rewrite ?app_nil_r; split; try done;
      unfold close_calls; simpl; lia. }
  destruct (files_loop_trace cf snapshot pbar debug (seqZ first (last + 1 - first)) w3)
    as (k & Hk & Hok & Hkc & _).
  rewrite Hr3 in Hk. rewrite Hc3 in Hkc. clearbody w3. exists k.
  rewrite mbind_run.
  destruct (for_ (seqZ first (last + 1 - first)) (file_step dc cf snapshot pbar debug) w3)
    as [[] w4|e w4]; simpl in Hk, Hok, Hkc.
  - destruct (epilogue_trace close_file_flag debug w4) as [He1 He2].
    rewrite He1, Hk. split; [done|]. intros Hret. split; [by apply Hok|].
    rewrite He2 by done. by rewrite Hkc.
  - simpl. by rewrite Hk.
Qed.

(** C1.  When the data class reports no galaxies for the snapshot (and
    has bound [_snapshot], which the log line reads), the call returns
    with the model exactly as [determine_num_gals] handed it back: given
    that the two data class calls left the property store alone, every
    accumulator is as at entry; no calculation function has been called
    and no progress bar opened. *)
Theorem calc_properties_all_files_no_galaxies cf snapshot close_file_flag use_pbar
    debug w m1 m2 snap :
  update_snapshot_and_data_path dc snapshot (model w) = Ok tt m1 →
  determine_num_gals dc snapshot m1 = Ok tt m2 →
  _num_gals_all_files m2 = Some 0 →
  _snapshot m2 = Some snap →
  _properties m2 = _properties (model w) →
  ∃ w', calc_properties_all_files dc tqdm_imported cf snapshot close_file_flag use_pbar debug w = Ok tt w' ∧
        model w' = m2 ∧
        _properties (model w') = _properties (model w) ∧
        (∀ key name, accumulator (_properties (model w')) key name
                       = accumulator (_properties (model w)) key name) ∧
        calc_calls (trace w') = calc_calls (trace w) ∧
        pbars_opened (trace w') = pbars_opened (trace w).
Proof.
  intros H1 H2 H3 H4 Hstore. eexists. split.
  { by eapply calc_properties_all_files_empty. }
  simpl. split_and!; [done|done|by rewrite Hstore| |].
  - rewrite calc_calls_app. simpl. by rewrite app_nil_r.
  - rewrite pbars_opened_app. unfold pbars_opened at 2. simpl. lia.
Qed.

(** C8.  When the data class reports galaxies, the call asks [read_gals]
    for the files [first_file_to_analyze .. last_file_to_analyze] in
    ascending order: always a prefix of that range, and the whole range
    when the call returns.  The call is the loop of [file_step] over that
    range, and a turn whose batch is [None] returns at once: the model is
    as [read_gals] handed it back and the only new event is the request
    itself, so no calculation function was called for that file. *)
Theorem calc_properties_all_files_reads cf snapshot close_file_flag use_pbar debug
    w m1 m2 n first last :
  update_snapshot_and_data_path dc snapshot (model w) = Ok tt m1 →
  determine_num_gals dc snapshot m1 = Ok tt m2 →
  _num_gals_all_files m2 = Some n → n ≠ 0 →
  _first_file_to_analyze m2 = Some first →
  _last_file_to_analyze m2 = Some last →
  let r := calc_properties_all_files dc tqdm_imported cf snapshot close_file_flag use_pbar debug w in
  let files := seqZ first (last + 1 - first) in
  (∃ k, read_requests (trace (state_of r)) = read_requests (trace w) ++ take k files) ∧
  (is_ok r = true →
   read_requests (trace (state_of r)) = read_requests (trace w) ++ files) ∧
  (∀ i, files !! i = (if decide (Z.of_nat i < last + 1 - first)
                      then Some (first + Z.of_nat i) else None)) ∧
  (∃ pbar new,
     (new = [] ∨ new = [EvTqdm n]) ∧
     r = (for_ files (file_step dc cf snapshot pbar debug);;
          (if close_file_flag then call EvCloseFile (close_file dc) else mret tt);;
          if debug then emit EvPrintDuration;; emit (EvPrint "") else mret tt)
           (mkWorld m2
              (trace w ++ [EvUpdateSnapshot snapshot; EvDetermineNumGals snapshot] ++ new))) ∧
  (∀ w0 pbar file_num m',
     read_gals dc file_num snapshot pbar debug (model w0) = Ok None m' →
     ∃ w0', file_step dc cf snapshot pbar debug file_num w0 = Ok tt w0' ∧
            model w0' = m' ∧
            trace w0' = trace w0 ++ [EvReadGals file_num snapshot pbar debug] ∧
            calc_calls (trace w0') = calc_calls (trace w0)).
Proof.
  intros H1 H2 H3 Hn Hfirst Hlast r files.
  destruct (calc_properties_all_files_trace cf snapshot close_file_flag use_pbar debug
              w m1 m2 n first last H1 H2 H3 Hn Hfirst Hlast) as (k & Hk & Hok).
  fold r in Hk, Hok. fold files in Hk, Hok. split_and!.
  - by exists k.
  - intros Hret. destruct (Hok Hret) as [-> _].
    by rewrite Hk, firstn_all.
  - intros i. subst files. case_decide.
    + by rewrite lookup_seqZ_lt by lia.
    + apply lookup_seqZ_ge. lia.
  - by eapply calc_properties_all_files_loop.
  - intros w0 pbar file_num m' Hskip. eexists. split.
    { by apply file_step_skip. }
    simpl. split_and!; [done|done|].
    rewrite calc_calls_app. simpl. by rewrite app_nil_r.
Qed.

End AllFiles.

(** ** Construction *)

Section Construction.

Context {DS : Type}.

(** Whatever string is passed as [IMF], a construction that succeeds has
    stored it: [__init__] assigns [_IMF] directly. *)
Lemma init_stores_IMF (dc : DS) sage_file sage_output_format label first last
    num_files seed IMF toggles need_smf sample_size sSFRcut (m : Model DS) :
  __init__ dc sage_file sage_output_format label first last num_files seed IMF
    toggles need_smf sample_size sSFRcut = inr m →
  _IMF m = IMF ∧ _properties m = ∅ ∧ _bins m = ∅.
Proof.
  unfold __init__. repeat case_match; try discriminate. by intros [= <-].
Qed.

(** Whether construction succeeds does not depend on [IMF]. *)
Lemma init_ignores_IMF (dc : DS) sage_file sage_output_format label first last
    num_files seed IMF IMF' toggles need_smf sample_size sSFRcut (m : Model DS) :
  __init__ dc sage_file sage_output_format label first last num_files seed IMF
    toggles need_smf sample_size sSFRcut = inr m →
  __init__ dc sage_file sage_output_format label first last num_files seed IMF'
    toggles need_smf sample_size sSFRcut = inr (with_IMF IMF' m).
Proof.
  unfold __init__. repeat case_match; try discriminate. by intros [= <-].
Qed.

End Construction.

(** * The small instance at work *)

Section DemoFacts.

Import Demo.
#[local] Existing Instance exact.

Local Abbreviation World := (World DS Gals Kwargs).

Example snapshot_key_12 : snapshot_key 12 = "snapshot_12".
Proof. reflexivity. Qed.

Example arange_0_3_1 :
  np_arange (finite 0) (float_add (finite 2) (finite 1)) (finite 1)
    = inr [finite 0; finite 1; finite 2].
Proof. reflexivity. Qed.

Example arange_empty :
  np_arange (finite 0) (float_add (finite (-2)) (finite 1)) (finite 1) = inr [].
Proof. reflexivity. Qed.

Example zeros_negative : np_zeros (0 - 1) = inl (ValueError "negative dimensions are not allowed").
Proof. reflexivity. Qed.

Lemma construct_demo_model (files : DS) (last : Z) :
  construct files last "Chabrier" = inr (demo_model files last).
Proof. reflexivity. Qed.

(** The scenario of two files with masses [1, 2] and [3]: the total is
    [6], three galaxies were counted, and both files were asked for. *)
Example two_files_total :
  let w := state_of (init_single_properties ["TotalMass"; "NumGals"] 0
                       (demo_world [Some [1%Q; 2%Q]; Some [3%Q]] 1)) in
  let r := calc_properties_all_files demo_data_class true demo_functions
             0 true true false w in
  is_ok r = true ∧
  accumulator (_properties (model (state_of r))) "snapshot_0" "TotalMass"
    = Some (pyfloat (finite 6)) ∧
  accumulator (_properties (model (state_of r))) "snapshot_0" "NumGals"
    = Some (pyfloat (finite 3)) ∧
  read_requests (trace (state_of r)) = [0; 1] ∧
  close_calls (trace (state_of r)) = 1%nat ∧
  pbars_opened (trace (state_of r)) = 1%nat.
Proof. vm_compute. done. Qed.

(** The scenario of a skipped second file: everything the store holds is
    what the first file alone gives. *)
Example skipped_file_adds_nothing :
  let w2 := state_of (init_single_properties ["TotalMass"; "NumGals"] 0
                        (demo_world [Some [1%Q; 2%Q]; None] 1)) in
  let w1 := state_of (init_single_properties ["TotalMass"; "NumGals"] 0
                        (demo_world [Some [1%Q; 2%Q]] 0)) in
  let r2 := calc_properties_all_files demo_data_class true demo_functions
              0 true true false w2 in
  let r1 := calc_properties_all_files demo_data_class true demo_functions
              0 true true false w1 in
  is_ok r2 = true ∧
  read_requests (trace (state_of r2)) = [0; 1] ∧
  length (calc_calls (trace (state_of r2))) = 2%nat ∧
  _properties (model (state_of r2)) = _properties (model (state_of r1)).
Proof. vm_compute. done. Qed.

(** C4.  Construction with a label that is neither ["Chabrier"] nor
    ["Salpeter"] succeeds and stores the label, although assigning the
    same label through the [IMF] setter raises. *)
Theorem init_accepts_unrecognised_IMF :
  ("Kroupa" ∉ allowed_IMF) ∧
  (∃ m, construct [] 0 "Kroupa" = inr m ∧ _IMF m = "Kroupa") ∧
  (∃ msg, IMF_setter "Kroupa" (demo_world [] 0)
            = Raise (ValueError msg) (demo_world [] 0)).
Proof.
  split_and!.
  - unfold allowed_IMF. set_solver.
  - eexists. split; reflexivity.
  - eexists. reflexivity.
Qed.

(** C2.  A call with [close_file=True] on a snapshot without galaxies
    returns without having asked the data class to close. *)
Theorem calc_properties_all_files_empty_skips_close :
  ∃ w', calc_properties_all_files demo_data_class true demo_functions
          0 true true false (demo_world [Some []] 0) = Ok tt w' ∧
        close_calls (trace w') = 0%nat.
Proof.
  eexists. split.
  - by eapply calc_properties_all_files_empty.
  - reflexivity.
Qed.

(** C3 as worded fails: on a freshly constructed model, asking the store
    for a snapshot no initialiser was ever called for returns an empty
    mapping instead of raising. *)
Lemma properties_getitem_unknown_snapshot_returns :
  properties_getitem (snapshot_key 5) (demo_world [] 0)
    = Ok ∅ (mkWorld (with_properties {[ snapshot_key 5 := ∅ ]} (demo_model [] 0)) []) ∧
  ¬ ∃ e w', properties_getitem (snapshot_key 5) (demo_world [] 0) = Raise e w'.
Proof.
  assert (properties_getitem (snapshot_key 5) (demo_world [] 0)
    = Ok ∅ (mkWorld (with_properties {[ snapshot_key 5 := ∅ ]} (demo_model [] 0)) []))
    as H by (by rewrite properties_getitem_missing).
  split; [exact H|]. intros (e & w' & H'). rewrite H in H'. discriminate.
Qed.

Lemma calc_properties_all_files_no_galaxies_witness :
  ∃ w', calc_properties_all_files demo_data_class true demo_functions
          7 true true false (demo_world [Some []; None] 1) = Ok tt w' ∧
        model w' = with_num_gals_all_files (Some 0)
                     (with_snapshot (Some 7) (demo_model [Some []; None] 1)) ∧
        _properties (model w') = _properties (model (demo_world [Some []; None] 1)) ∧
        (∀ key name, accumulator (_properties (model w')) key name
           = accumulator (_properties (model (demo_world [Some []; None] 1))) key name) ∧
        calc_calls (trace w') = calc_calls (trace (demo_world [Some []; None] 1)) ∧
        pbars_opened (trace w') = pbars_opened (trace (demo_world [Some []; None] 1)).
Proof.
  apply (calc_properties_all_files_no_galaxies demo_data_class true demo_functions
           7 true true false (demo_world [Some []; None] 1)
           (with_snapshot (Some 7) (demo_model [Some []; None] 1)) _ 7);
    reflexivity.
Defined.

Lemma properties_read_never_initialised_witness :
  (∃ w', properties_getitem2 (snapshot_key 1) "SMF"
           (after_inits [InitScatter ["SMF"] 0; InitSingle ["TotalMass"] 0]
              (demo_world [] 0))
         = Raise (KeyError "SMF") w') ∧
  (∃ w', properties_getitem (snapshot_key 1)
           (after_inits [InitScatter ["SMF"] 0; InitSingle ["TotalMass"] 0]
              (demo_world [] 0)) = Ok ∅ w' ∧
         _properties (model w') !! snapshot_key 1 = Some ∅).
Proof.
  destruct (properties_read_never_initialised
              [InitScatter ["SMF"] 0; InitSingle ["TotalMass"] 0] 1 "SMF"
              (demo_world [] 0)) as [Hpair Hsnap].
  - reflexivity.
  - repeat constructor; simpl; intros [? _]; lia.
  - split; [exact Hpair|]. apply Hsnap. repeat constructor; simpl; lia.
Defined.


Lemma volume_setter_spec_witness :
  let w : World := mkWorld (with_box_size (Some (finite 5)) (demo_model [] 0)) [] in
  let vol := finite 125 in
  (∀ cube, float_pow (finite 5) 3 = inr cube →
     ((∃ e w', volume_setter vol w = Raise e w') ↔ float_gt vol cube = true) ∧
     (∀ e w', volume_setter vol w = Raise e w' →
        e = ValueError "" ∧ model w' = model w ∧
        _volume (model w') = _volume (model w)) ∧
     (∀ a w', volume_setter vol w = Ok a w' →
        _volume (model w') = Some vol ∧
        w' = mkWorld (with_volume (Some vol) (model w)) (trace w)) ∧
     (float_gt cube cube = false → is_ok (volume_setter cube w) = true)) ∧
  (∀ e, float_pow (finite 5) 3 = inl e → volume_setter vol w = Raise e w).
Proof.
  apply (volume_setter_spec (finite 125) (finite 5)
           (mkWorld (with_box_size (Some (finite 5)) (demo_model [] 0)) [])).
  reflexivity.
Defined.


(** C6 as worded fails: for a box size whose cube is beyond the largest
    float, [pow] raises [OverflowError], so that an assignment raises
    although the volume is not greater than the cube of the box size;
    nothing is printed and the model is as it was. *)
Lemma volume_setter_overflow :
  let w : World :=
    mkWorld (with_box_size (Some (finite (10 ^ 200))) (demo_model [] 0)) [] in
  ¬ ((10 ^ 200) ^ 3 < 0)%Q ∧
  volume_setter (num:=bounded) (finite 0) w = Raise OverflowError w.
Proof. vm_compute. done. Qed.

Lemma calc_properties_all_files_reads_witness :
  let w := state_of (init_single_properties ["TotalMass"; "NumGals"] 0
                       (demo_world [Some [1%Q; 2%Q]; None] 1)) in
  let r := calc_properties_all_files demo_data_class true demo_functions
             0 true true false w in
  read_requests (trace (state_of r)) = read_requests (trace w) ++ seqZ 0 (1 + 1 - 0) ∧
  ∃ w0', file_step demo_data_class demo_functions 0 None false 1 w = Ok tt w0' ∧
         model w0' = model w ∧
         trace w0' = trace w ++ [EvReadGals 1 0 None false] ∧
         calc_calls (trace w0') = calc_calls (trace w).
Proof.
  intros w r.
  destruct (calc_properties_all_files_reads demo_data_class true demo_functions
              0 true true false w (with_snapshot (Some 0) (model w))
              (with_num_gals_all_files (Some 2) (with_snapshot (Some 0) (model w)))
              2 0 1) as (_ & Hall & _ & _ & Hskip);
    [reflexivity | reflexivity | reflexivity | lia | reflexivity | reflexivity |].
  split.
  - apply Hall. vm_compute. reflexivity.
  - apply Hskip. reflexivity.
Defined.

Lemma IMF_setter_spec_witness :
  _IMF (model (state_of (IMF_setter "Salpeter" (demo_world [] 0)))) = "Salpeter" ∧
  ((∃ e w', IMF_setter "Kroupa" (demo_world [] 0) = Raise e w')
   ↔ ("Kroupa" ≠ "Chabrier" ∧ "Kroupa" ≠ "Salpeter")).
Proof.
  split.
  - destruct (IMF_setter_spec "Salpeter" (demo_world [] 0)) as (_ & _ & Hok).
    apply (Hok tt (state_of (IMF_setter "Salpeter" (demo_world [] 0)))).
    reflexivity.
  - apply (IMF_setter_spec "Kroupa" (demo_world [] 0)).
Defined.

Lemma calc_properties_spec_witness :
  let w := state_of (init_single_properties ["TotalMass"; "NumGals"] 0
                       (demo_world [] 0)) in
  let r := calc_properties demo_functions [1%Q; 2%Q] 0 w in
  calc_calls (trace (state_of r))
    = [(calc_total_mass, [1%Q; 2%Q], 0, 1%Q); (calc_num_gals, [1%Q; 2%Q], 0, 1%Q)] ∧
  model (state_of r)
    = run_entries [1%Q; 2%Q] 0 [(calc_total_mass, 1%Q); (calc_num_gals, 1%Q)] (model w).
Proof.
  intros w r.
  destruct (calc_properties_spec demo_functions [1%Q; 2%Q] 0 w) as [Hret _].
  destruct (Hret (state_of r)) as (_ & Hcalls & Hmodel); [reflexivity|].
  split; [exact Hcalls | exact Hmodel].
Defined.

Lemma init_properties_frame_witness :
  let w := state_of (init_scatter_properties ["SMF"] 1 (demo_world [] 0)) in
  let w' := state_of (init_single_properties ["TotalMass"] 0 w) in
  accumulator (_properties (model w')) (snapshot_key 1) "SMF" = Some (ndarray []) ∧
  accumulator (_properties (model w')) (snapshot_key 0) "NumGals" = None ∧
  _bins (model w') = _bins (model w).
Proof.
  intros w w'.
  destruct (init_properties_frame (finite 0) (finite 1) (finite 1) "bins" ["TotalMass"] 0 w)
    as (_ & _ & (_ & Hm & _ & Hacc & _)).
  fold w' in Hm, Hacc. split_and!.
  - rewrite Hacc; [reflexivity|]. left. intros H. apply snapshot_key_inj in H. lia.
  - rewrite Hacc; [reflexivity|]. right. set_solver.
  - rewrite Hm. reflexivity.
Defined.

End DemoFacts.

(** * Further properties *)

(** ** What the initialisers do to the stores *)

Section InitEffects.

Context {DS Gals Kwargs : Type} {num : Numerics}.
Local Abbreviation M := (M DS Gals Kwargs).
Local Abbreviation World := (World DS Gals Kwargs).

Lemma fill_lookup (names : list string) v (inner : gmap string value) p :
  fill names v inner !! p = if decide (p ∈ names) then Some v else inner !! p.
Proof.
  revert inner. induction names as [|n names IH]; intros inner.
  - case_decide as H; [by apply elem_of_nil in H|done].
  - change (fill (n :: names) v inner) with (fill names v (<[n := v]> inner)).
    rewrite IH. destruct (decide (p = n)) as [->|Hne].
    + rewrite lookup_insert_eq. repeat case_decide; try done; set_solver.
    + rewrite lookup_insert_ne by done. repeat case_decide; try done; set_solver.
Qed.

Lemma store_set_lookup_key key name v (d : gmap string (gmap string value)) :
  store_set key name v d !! key = Some (<[name := v]> (default ∅ (d !! key))).
Proof. unfold store_set. by rewrite lookup_insert_eq. Qed.

Lemma set_all_cons key n (names : list string) v
    (d : gmap string (gmap string value)) :
  set_all key (n :: names) v d = set_all key names v (store_set key n v d).
Proof. done. Qed.

Lemma fill_cons n (names : list string) v (inner : gmap string value) :
  fill (n :: names) v inner = fill names v (<[n := v]> inner).
Proof. done. Qed.

Lemma set_all_lookup key (names : list string) v
    (d : gmap string (gmap string value)) k :
  set_all key names v d !! k =
    if decide (k = key ∧ names ≠ [])
    then Some (fill names v (default ∅ (d !! key)))
    else d !! k.
Proof.
  revert d. induction names as [|n names IH]; intros d.
  - rewrite decide_False; [done|]. naive_solver.
  - rewrite set_all_cons, IH, store_set_lookup_key, fill_cons. simpl.
    destruct (decide (k = key)) as [->|Hk].
    + rewrite (decide_True (P := _ ∧ n :: names ≠ [])) by done.
      destruct names as [|n' names].
      * rewrite decide_False by naive_solver. apply store_set_lookup_key.
      * by rewrite decide_True.
    + rewrite !decide_False by naive_solver. by apply store_set_other_key.
Qed.

Lemma for_setitem_closed key v (names : list string) (w : World) :
  for_ names (λ p, properties_setitem key p v) w =
    Ok tt (mkWorld (with_properties (set_all key names v (_properties (model w)))
                      (model w)) (trace w)).
Proof.
  revert w. induction names as [|n names IH]; intros w.
  - rewrite for_nil. destruct w as [[] ?]. done.
  - rewrite for_cons, properties_setitem_run, IH. done.
Qed.

Lemma set_all_idempotent key (names : list string) v
    (d : gmap string (gmap string value)) :
  set_all key names v (set_all key names v d) = set_all key names v d.
Proof.
  apply map_eq. intros k. rewrite !set_all_lookup.
  case_decide as Hk; [|done]. destruct Hk as [-> Hne].
  rewrite decide_True by done. simpl. f_equal.
  apply map_eq. intros p. rewrite !fill_lookup. by case_decide.
Qed.

Lemma set_all_commute key1 key2 (names1 names2 : list string) v1 v2
    (d : gmap string (gmap string value)) :
  key1 ≠ key2 ∨ (∀ p, p ∈ names1 → p ∉ names2) →
  set_all key1 names1 v1 (set_all key2 names2 v2 d)
    = set_all key2 names2 v2 (set_all key1 names1 v1 d).
Proof.
  intros Hind. apply map_eq. intros k. rewrite !set_all_lookup.
  destruct (decide (key1 = key2)) as [<-|Hkeys].
  - destruct Hind as [?|Hdisj]; [done|].
    destruct (decide (k = key1)) as [->|Hk].
    + repeat case_decide; try naive_solver.
      simpl. f_equal. apply map_eq. intros p. rewrite !fill_lookup.
      repeat case_decide; try done. exfalso. naive_solver.
    + by rewrite !decide_False by naive_solver.
  - repeat case_decide; destruct_and?; subst; try done; naive_solver.
Qed.

(** Whether it returns or raises, a call of an initialiser leaves the
    world with the model [init_effect] describes. *)
Lemma run_init_effect (c : init_call) (w : World) :
  state_of (run_init c w) = mkWorld (init_effect c (model w)) (trace w).
Proof.
  destruct c as [lo hi width bin names s|names s|names s]; simpl.
  - unfold init_binned_properties, init_effect, init_bins, init_value, lift_exn.
    unfold_M. simpl.
    destruct (np_arange lo (float_add hi width) width) as [e|edges]; simpl.
    { destruct w as [[] ?]. done. }
    destruct (np_zeros (Z.of_nat (length edges) - 1)) as [e|zeros] eqn:Ez.
    + destruct names as [|n names]; done.
    + set (w1 := mkWorld _ _).
      rewrite (for_ext names _
                 (λ p, properties_setitem (snapshot_key s) p zeros)) by done.
      rewrite for_setitem_closed. done.
  - unfold init_scatter_properties. rewrite for_setitem_closed. done.
  - unfold init_single_properties. rewrite for_setitem_closed. done.
Qed.

Lemma init_effect_twice (c1 c2 : init_call) (m : Model DS) :
  init_effect c2 (init_effect c1 m) =
    with_bins
      (match init_bins c2 with
       | Some (bin_name, edges) => <[bin_name := edges]> (_bins (init_effect c1 m))
       | None => _bins (init_effect c1 m)
       end)
      (with_properties
         (match init_value c2 with
          | Some v => set_all (snapshot_key (init_snapshot c2)) (init_names c2) v
                        (_properties (init_effect c1 m))
          | None => _properties (init_effect c1 m)
          end) m).
Proof. done. Qed.

Lemma with_stores_eq bins bins' props props' (m : Model DS) :
  bins = bins' → props = props' →
  with_bins bins (with_properties props m) = with_bins bins' (with_properties props' m).
Proof. by intros -> ->. Qed.

Lemma init_bins_name (c : init_call) bin_name edges :
  init_bins c = Some (bin_name, edges) → init_bin_name c = Some bin_name.
Proof.
  destruct c; simpl; try discriminate.
  destruct (np_arange _ _ _); [discriminate|]. by intros [= <- _].
Qed.

Lemma properties_getitem2_found key name v (w : World) :
  accumulator (_properties (model w)) key name = Some v →
  properties_getitem2 key name w = Ok v w.
Proof.
  unfold accumulator, properties_getitem2, properties_getitem, defaultdict_getitem.
  unfold_M. intros Hacc.
  destruct (_properties (model w) !! key) as [inner|] eqn:E; simpl in *; [|done].
  rewrite Hacc. destruct w as [[] ?]. done.
Qed.

(** X1.  [init_scatter_properties] and [init_single_properties] always
    return, and afterwards every listed name, whatever it held before,
    reads back as an empty array, respectively as [0.0]; the read leaves
    the world as it is. *)
Theorem init_scatter_single_read_back (property_names : list string) (snapshot : Z)
    (w : World) :
  ∃ w1 w2,
    init_scatter_properties property_names snapshot w = Ok tt w1 ∧
    init_single_properties property_names snapshot w = Ok tt w2 ∧
    ∀ p, p ∈ property_names →
      properties_getitem2 (snapshot_key snapshot) p w1 = Ok (ndarray []) w1 ∧
      properties_getitem2 (snapshot_key snapshot) p w2 = Ok (pyfloat zero) w2.
Proof.
  destruct (for_setitem_run (snapshot_key snapshot) (ndarray []) property_names w)
    as (w1 & H1 & _ & Hacc1).
  destruct (for_setitem_run (snapshot_key snapshot) (pyfloat zero) property_names w)
    as (w2 & H2 & _ & Hacc2).
  exists w1, w2. split_and!; [done|done|].
  intros p Hp. split; apply properties_getitem2_found.
  - rewrite Hacc1. by rewrite decide_True.
  - rewrite Hacc2. by rewrite decide_True.
Qed.

(** X2.  Calling an initialiser twice in a row with the same arguments
    leaves the same world as calling it once. *)
Theorem init_call_idempotent (c : init_call) (w : World) :
  after_inits [c; c] w = after_inits [c] w.
Proof.
  unfold after_inits. simpl. rewrite !run_init_effect. simpl. f_equal.
  rewrite init_effect_twice. apply with_stores_eq.
  - unfold init_effect. simpl. destruct (init_bins c) as [[bin_name edges]|]; [|done].
    by rewrite insert_insert_eq.
  - unfold init_effect. simpl. destruct (init_value c) as [v|]; [|done].
    by rewrite set_all_idempotent.
Qed.

(** X3.  Two calls of initialisers that write no accumulator and no bin
    entry in common can be made in either order. *)
Theorem init_calls_commute (c1 c2 : init_call) (w : World) :
  independent c1 c2 →
  after_inits [c1; c2] w = after_inits [c2; c1] w.
Proof.
  intros [Hacc Hbin]. unfold after_inits. simpl. rewrite !run_init_effect. simpl.
  f_equal. rewrite !init_effect_twice. apply with_stores_eq.
  - unfold init_effect. simpl.
    destruct (init_bins c1) as [[b1 e1]|] eqn:E1,
             (init_bins c2) as [[b2 e2]|] eqn:E2; try done.
    apply init_bins_name in E1, E2. apply insert_insert_ne.
    destruct Hbin as [Hbin|Hbin]; congruence.
  - unfold init_effect. simpl.
    destruct (init_value c1) as [v1|], (init_value c2) as [v2|]; try done.
    symmetry. apply set_all_commute.
    destruct Hacc as [Hs|Hn]; [left|by right].
    intros Hk. by apply snapshot_key_inj in Hk.
Qed.

(** X4.  Reading the store, by snapshot key or by (snapshot key, name),
    changes no accumulator and nothing outside the store; all it can do is
    bind a missing snapshot key to an empty mapping, so that reading again
    gives the same answer and changes nothing more. *)
Theorem properties_read_preserves (key name : string) (w : World) :
  let r := properties_getitem key w in
  let w' := state_of r in
  state_of (properties_getitem2 key name w) = w' ∧
  trace w' = trace w ∧
  model w' = with_properties (_properties (model w')) (model w) ∧
  (∀ k p, accumulator (_properties (model w')) k p
            = accumulator (_properties (model w)) k p) ∧
  (∀ k, k ≠ key → _properties (model w') !! k = _properties (model w) !! k) ∧
  (∃ inner, r = Ok inner w' ∧ properties_getitem key w' = Ok inner w').
Proof.
  unfold properties_getitem2, properties_getitem, defaultdict_getitem, accumulator.
  unfold_M. simpl.
  destruct (_properties (model w) !! key) as [inner|] eqn:E; simpl.
  - rewrite E. split_and!.
    + by destruct (inner !! name).
    + done.
    + done.
    + done.
    + done.
    + by exists inner.
  - rewrite lookup_insert_eq, lookup_empty. split_and!.
    + done.
    + done.
    + done.
    + intros k p. destruct (decide (k = key)) as [->|Hk].
      * by rewrite lookup_insert_eq, E.
      * by rewrite lookup_insert_ne.
    + intros k Hk. by rewrite lookup_insert_ne.
    + by exists ∅.
Qed.

(** X5.  Distinct snapshot numbers have distinct store keys, and so
    calls of the initialisers for other snapshots leave the whole mapping
    of a snapshot, and each of its accumulators, as they were. *)
Theorem snapshots_do_not_interfere (cs : list init_call) (snapshot : Z) (w : World) :
  (∀ s1 s2, snapshot_key s1 = snapshot_key s2 → s1 = s2) ∧
  (Forall (λ c, init_snapshot c ≠ snapshot) cs →
   _properties (model (after_inits cs w)) !! snapshot_key snapshot
     = _properties (model w) !! snapshot_key snapshot ∧
   ∀ p, accumulator (_properties (model (after_inits cs w))) (snapshot_key snapshot) p
          = accumulator (_properties (model w)) (snapshot_key snapshot) p).
Proof.
  split; [apply snapshot_key_inj|]. intros Hcs.
  pose proof (after_inits_snapshot cs snapshot w Hcs) as H.
  split; [done|]. intros p. unfold accumulator. by rewrite H.
Qed.

End InitEffects.

(** ** Degenerate bin specifications *)

Section DegenerateBins.

Context {DS Gals Kwargs : Type} {num : Numerics}.
Local Abbreviation M := (M DS Gals Kwargs).
Local Abbreviation World := (World DS Gals Kwargs).

Lemma arange_no_edges (lo hi width : Q) :
  (0 < width)%Q → (hi + width <= lo)%Q →
  exact_arange (finite lo) (exact_add (finite hi) (finite width)) (finite width)
    = inr [].
Proof.
  intros Hw Hle. unfold exact_arange, exact_add, arange_values, arange_len.
  destruct (Qeq_bool width 0) eqn:E; [apply Qeq_bool_eq in E; lra|].
  assert (Qceiling ((hi + width - lo) / width) <= 0)%Z as Hc.
  { change 0%Z with (Qceiling (inject_Z 0)).
    apply Qceiling_resp_le. apply Qle_shift_div_r; [done|].
    change (inject_Z 0) with 0%Q. lra. }
  by rewrite Z.max_l by lia.
Qed.

Lemma init_binned_properties_empty (bin_low bin_high bin_width : float)
    (bin_name : string) (property_names : list string) (snapshot : Z) (w : World) :
  np_arange bin_low (float_add bin_high bin_width) bin_width = inr [] →
  init_binned_properties bin_low bin_high bin_width bin_name property_names snapshot w
    = let w' := mkWorld (with_bins (<[bin_name := []]> (_bins (model w))) (model w))
                  (trace w) in
      match property_names with
      | [] => Ok tt w'
      | _ :: _ => Raise (ValueError "negative dimensions are not allowed") w'
      end.
Proof.
  intros Har. unfold init_binned_properties, lift_exn.
  rewrite Har. unfold_M. simpl. by destruct property_names.
Qed.

Lemma init_binned_properties_raises (bin_low bin_high bin_width : float)
    (bin_name : string) (property_names : list string) (snapshot : Z) (w : World) e :
  np_arange bin_low (float_add bin_high bin_width) bin_width = inl e →
  init_binned_properties bin_low bin_high bin_width bin_name property_names snapshot w
    = Raise e w.
Proof.
  intros Har. unfold init_binned_properties, lift_exn. by rewrite Har.
Qed.

End DegenerateBins.

Section DegenerateBinsSpec.

Context {DS Gals Kwargs : Type}.
Local Abbreviation M := (M DS Gals Kwargs).
Local Abbreviation World := (World DS Gals Kwargs).

(** X6.  When [numpy.arange] returns no edge at all, then with no
    property name the call returns, having stored an empty edge array
    under [bin_name]; with at least one name it raises [ValueError] (an
    array of [-1] zeros), having stored the empty edge array and left the
    property store as it was.  In exact arithmetic this is the case with a
    positive width and [bin_high + bin_width <= bin_low]. *)
Theorem init_binned_properties_no_edges (bin_name : string)
    (property_names : list string) (snapshot : Z) (w : World) :
  let w' := mkWorld (with_bins (<[bin_name := []]> (_bins (model w))) (model w))
              (trace w) in
  let expected : Res World unit :=
    match property_names with
    | [] => Ok tt w'
    | _ :: _ => Raise (ValueError "negative dimensions are not allowed") w'
    end in
  (∀ (num : Numerics) (bin_low bin_high bin_width : float),
     np_arange bin_low (float_add bin_high bin_width) bin_width = inr [] →
     init_binned_properties bin_low bin_high bin_width bin_name property_names
       snapshot w = expected) ∧
  (∀ bin_low bin_high bin_width : Q,
     (0 < bin_width)%Q → (bin_high + bin_width <= bin_low)%Q →
     init_binned_properties (num:=exact) (finite bin_low) (finite bin_high)
       (finite bin_width) bin_name property_names snapshot w = expected).
Proof.
  intros w' expected. split.
  - intros num bin_low bin_high bin_width Har.
    by rewrite (init_binned_properties_empty _ _ _ _ _ _ _ Har).
  - intros bin_low bin_high bin_width Hw Hle.
    by rewrite (init_binned_properties_empty (num:=exact) _ _ _ _ _ _ _
                  (arange_no_edges _ _ _ Hw Hle)).
Qed.

(** X8.  When [numpy.arange] raises, the call raises the same exception
    before it has stored anything: neither the bin registry nor the
    property store changes.  With a zero width this is the case: the
    division that gives the number of edges raises
    [ZeroDivisionError]. *)
Theorem init_binned_properties_zero_width (bin_name : string)
    (property_names : list string) (snapshot : Z) (w : World) :
  (∀ (num : Numerics) (bin_low bin_high bin_width : float) e,
     np_arange bin_low (float_add bin_high bin_width) bin_width = inl e →
     init_binned_properties bin_low bin_high bin_width bin_name property_names
       snapshot w = Raise e w) ∧
  (∀ bin_low bin_high bin_width : Q,
     (bin_width == 0)%Q →
     init_binned_properties (num:=exact) (finite bin_low) (finite bin_high)
       (finite bin_width) bin_name property_names snapshot w
       = Raise ZeroDivisionError w) ∧
  (∀ bin_low bin_high bin_width : Q,
     (bin_width == 0)%Q →
     init_binned_properties (num:=bounded) (finite bin_low) (finite bin_high)
       (finite bin_width) bin_name property_names snapshot w
       = Raise ZeroDivisionError w).
Proof.
  split_and!.
  - intros num bin_low bin_high bin_width e Har.
    by apply init_binned_properties_raises.
  - intros bin_low bin_high bin_width Hz.
    apply (init_binned_properties_raises (num:=exact)). simpl.
    by rewrite (proj2 (Qeq_bool_iff bin_width 0) Hz).
  - intros bin_low bin_high bin_width Hz.
    apply (init_binned_properties_raises (num:=bounded)). simpl.
    unfold bounded_arange, bounded_add. simpl.
    repeat case_match; try done;
      by rewrite (proj2 (Qeq_bool_iff bin_width 0) Hz) in *.
Qed.

End DegenerateBinsSpec.

Section BinLengths.

Context {DS Gals Kwargs : Type} {num : Numerics}.
Local Abbreviation M := (M DS Gals Kwargs).
Local Abbreviation World := (World DS Gals Kwargs).

(** X21.  Whatever the bin specification, a call that returns has stored
    at least one edge under [bin_name], and every listed property is an
    array of zeros with one entry fewer than there are edges. *)
Theorem init_binned_properties_lengths (bin_low bin_high bin_width : float)
    (bin_name : string) (property_names : list string) (snapshot : Z) (w w' : World)
    (p : string) :
  init_binned_properties bin_low bin_high bin_width bin_name
    property_names snapshot w = Ok tt w' →
  p ∈ property_names →
  ∃ edges,
    _bins (model w') !! bin_name = Some edges ∧ (1 ≤ length edges)%nat ∧
    accumulator (_properties (model w')) (snapshot_key snapshot) p
      = Some (ndarray (replicate (length edges - 1) zero)).
Proof.
  unfold init_binned_properties, lift_exn. unfold_M.
  destruct (np_arange bin_low (float_add bin_high bin_width) bin_width) as [e|edges];
    [done|]. simpl.
  set (w1 := mkWorld _ _). intros Hrun Hp.
  unfold np_zeros in Hrun.
  destruct (Z.ltb_spec (Z.of_nat (length edges) - 1) 0) as [Hneg|Hpos].
  { destruct property_names as [|n names]; [by apply elem_of_nil in Hp|done]. }
  destruct (for_setitem_run (snapshot_key snapshot)
              (ndarray (replicate (Z.to_nat (Z.of_nat (length edges) - 1)) zero))
              property_names w1) as (w2 & Hrun2 & Hbins & Hacc).
  assert (w' = w2) as ->.
  { rewrite (for_ext property_names _
               (λ p, properties_setitem (snapshot_key snapshot) p
                       (ndarray (replicate (Z.to_nat (Z.of_nat (length edges) - 1)) zero))))
      in Hrun by done.
    rewrite Hrun2 in Hrun. by injection Hrun. }
  exists edges. split_and!.
  - rewrite Hbins. subst w1. simpl. by rewrite lookup_insert_eq.
  - lia.
  - rewrite Hacc, decide_True by done. do 3 f_equal. lia.
Qed.

End BinLengths.

(** ** Construction and assignments *)

Section Assignments.

Context {DS Gals Kwargs : Type} {num : Numerics}.
Local Abbreviation M := (M DS Gals Kwargs).
Local Abbreviation World := (World DS Gals Kwargs).

(** X9.  Construction raises exactly when the output format is
    ["sage_binary"] and the number of output files, the first file or the
    last file is missing, and then with a [RuntimeError].  A model that is
    constructed has the attributes as passed, both stores empty, and none
    of the attributes that the data class binds later. *)
Theorem init_spec (dc : DS) sage_file sage_output_format label first last
    num_files seed IMF toggles need_smf sample_size sSFRcut :
  let r := __init__ dc sage_file sage_output_format label first last num_files seed
             IMF toggles need_smf sample_size sSFRcut in
  ((∃ e, r = inl e) ↔
   (sage_output_format = Some "sage_binary" ∧
    (num_files = None ∨ first = None ∨ last = None))) ∧
  (∀ e, r = inl e → ∃ msg, e = RuntimeError msg) ∧
  (∀ m, r = inr m →
     m = mkModel sage_file IMF label sage_output_format first last seed toggles
           need_smf sample_size sSFRcut ∅ ∅ num_files None None None None None dc).
Proof.
  unfold __init__. simpl.
  destruct (decide (sage_output_format = Some "sage_binary")) as [Hb|Hb];
    [rewrite (bool_decide_eq_true_2 _ Hb)|rewrite (bool_decide_eq_false_2 _ Hb)];
    destruct num_files, first, last; simpl; split_and!;
    try (split; [intros [e He]|intros [? ?]]);
    try discriminate; try (by intros ? [= <-]); try naive_solver.
Qed.

(** X10.  On a model as construction leaves it, assigning any volume
    raises [AttributeError]: [box_size] is bound only later, by the data
    class.  Nothing is printed and nothing changes. *)
Theorem volume_setter_after_init (dc : DS) sage_file sage_output_format label
    first last num_files seed IMF toggles need_smf sample_size sSFRcut
    (m : Model DS) (vol : float) (tr : list (Event DS Gals Kwargs)) :
  __init__ dc sage_file sage_output_format label first last num_files seed IMF
    toggles need_smf sample_size sSFRcut = inr m →
  volume_setter vol (mkWorld m tr) = Raise (AttributeError "_box_size") (mkWorld m tr).
Proof.
  unfold __init__. repeat case_match; try discriminate. by intros [= <-].
Qed.

Lemma run_assignment_keeps (a : assignment) (w : World) :
  let w' := state_of (run_assignment a w) in
  _box_size (model w') = _box_size (model w) ∧
  (_volume (model w') = _volume (model w) ∨
   ∃ vol box_size cube, _volume (model w') = Some vol ∧
     _box_size (model w) = Some box_size ∧
     float_pow box_size 3 = inr cube ∧ float_gt vol cube = false) ∧
  (_IMF (model w') = _IMF (model w) ∨ _IMF (model w') ∈ allowed_IMF).
Proof.
  destruct a as [vol|IMF]; simpl.
  - destruct (_box_size (model w)) as [b|] eqn:Hb.
    + rewrite (volume_setter_run vol b w Hb).
      destruct (float_pow b 3) as [e|cube] eqn:Hcube; simpl.
      { split_and!; [done|by left|by left]. }
      destruct (float_gt vol cube) eqn:E; simpl.
      * split_and!; [done|by left|by left].
      * rewrite Hb. split_and!; [done| |by left].
        right. by exists vol, b, cube.
    + unfold volume_setter. unfold_M. rewrite Hb. simpl.
      split_and!; [done|by left|by left].
  - unfold IMF_setter. unfold_M. case_bool_decide as Hin; simpl.
    + split_and!; [done|by left|by left].
    + split_and!; [done|by left|]. right. unfold allowed_IMF in *.
      destruct (decide (IMF ∈ ["Chabrier"; "Salpeter"])); [done|]. done.
Qed.

(** X11.  The volume bound, as the setter checks it, is an invariant of
    assignment: on a model whose stored volume, if any, is not greater
    (by [>] on floats) than [pow(box_size, 3)], this still holds after
    any sequence of assignments to [volume] and [IMF], rejected ones
    included; and the box size is the one it was. *)
Theorem assignments_keep_volume_not_above_cube (assignments : list assignment)
    (w : World) :
  volume_not_above_cube (model w) →
  volume_not_above_cube (model (after_assignments assignments w)) ∧
  _box_size (model (after_assignments assignments w)) = _box_size (model w).
Proof.
  unfold after_assignments. revert w.
  induction assignments as [|a assignments IH]; intros w Hw; [done|].
  simpl.
  destruct (run_assignment_keeps a w) as (Hbox & Hvol & _).
  destruct (IH (state_of (run_assignment a w))) as [Hinv Hb'].
  - intros b vol cube Hb Hv Hcube. rewrite Hbox in Hb.
    destruct Hvol as [Hsame|(v' & b' & cube' & Hv' & Hb2 & Hcube' & Hgt)].
    + apply (Hw b vol cube); [done| |done]. by rewrite <- Hsame.
    + rewrite Hv' in Hv. injection Hv as <-.
      rewrite Hb in Hb2. injection Hb2 as <-.
      rewrite Hcube in Hcube'. by injection Hcube' as <-.
  - split; [exact Hinv|]. by rewrite Hb', Hbox.
Qed.

(** X12.  A recognised [IMF] stays recognised: on a model whose stored
    [IMF] is ["Chabrier"] or ["Salpeter"], it still is one of the two after
    any sequence of assignments to [volume] and [IMF], rejected ones
    included. *)
Theorem assignments_keep_IMF_allowed (assignments : list assignment) (w : World) :
  _IMF (model w) ∈ allowed_IMF →
  _IMF (model (after_assignments assignments w)) ∈ allowed_IMF.
Proof.
  unfold after_assignments. revert w.
  induction assignments as [|a assignments IH]; intros w Hw; [done|].
  simpl. apply IH.
  destruct (run_assignment_keeps a w) as (_ & _ & [Hsame|Hin]); [|done].
  by rewrite Hsame.
Qed.

End Assignments.

(** ** More on [calc_properties] *)

Section CalcMore.

Context {DS Gals Kwargs : Type}.
Local Abbreviation M := (M DS Gals Kwargs).
Local Abbreviation World := (World DS Gals Kwargs).
Local Abbreviation CalcFn := (CalcFn DS Gals Kwargs).

Implicit Types (cf : list (string * (CalcFn * Kwargs))) (w : World).

Lemma calc_properties_app cf1 cf2 (gals : Gals) (snapshot : Z) w :
  calc_properties (cf1 ++ cf2) gals snapshot w =
    match calc_properties cf1 gals snapshot w with
    | Ok _ w1 => calc_properties cf2 gals snapshot w1
    | Raise e w1 => Raise e w1
    end.
Proof.
  revert w. induction cf1 as [|[name [func kwargs]] cf1 IH]; intros w; [done|].
  change (((name, (func, kwargs)) :: cf1) ++ cf2)
    with ((name, (func, kwargs)) :: (cf1 ++ cf2)).
  rewrite (calc_properties_cons name func kwargs (cf1 ++ cf2)).
  rewrite (calc_properties_cons name func kwargs cf1).
  destruct (func (model w) gals snapshot kwargs); [apply IH|done].
Qed.

(** X13.  A calculation function that raises ends [calc_properties]
    there: the exception goes to the caller, the entries after it in the
    registry are not called, and what the entries before it (and the
    raising one) did to the model stays. *)
Theorem calc_properties_stops_at_raise cf1 name func kwargs cf2
    (gals : Gals) (snapshot : Z) w w1 e m' :
  calc_properties cf1 gals snapshot w = Ok tt w1 →
  func (model w1) gals snapshot kwargs = Raise e m' →
  calc_properties (cf1 ++ (name, (func, kwargs)) :: cf2) gals snapshot w
    = Raise e (mkWorld m' (trace w ++ (calc_event gals snapshot <$> values cf1)
                             ++ [EvCalc func gals snapshot kwargs])) ∧
  model w1 = run_entries gals snapshot (values cf1) (model w).
Proof.
  intros H1 Hf. rewrite calc_properties_app, H1.
  apply calc_properties_returned in H1 as [Ht Hm]. split; [|done].
  etrans; [apply calc_properties_cons|]. rewrite Hf.
  by rewrite Ht, <- app_assoc.
Qed.

End CalcMore.

(** ** More on [calc_properties_all_files] *)

Section AllFilesMore.

Context {DS Gals Kwargs : Type}.
Local Abbreviation M := (M DS Gals Kwargs).
Local Abbreviation World := (World DS Gals Kwargs).
Local Abbreviation Event := (Event DS Gals Kwargs).
Local Abbreviation CalcFn := (CalcFn DS Gals Kwargs).

Context (dc : DataClass DS Gals) (tqdm_imported : bool).

Implicit Types (cf : list (string * (CalcFn * Kwargs))) (w : World).

Lemma make_pbar_exact use_pbar debug w n :
  _num_gals_all_files (model w) = Some n →
  make_pbar tqdm_imported use_pbar debug w =
    Ok (chosen_pbar tqdm_imported use_pbar debug n)
       (mkWorld (model w)
          (trace w ++ pbar_events (chosen_pbar tqdm_imported use_pbar debug n))).
Proof.
  intros Hn. unfold make_pbar, chosen_pbar.
  destruct (debug || negb use_pbar); [|destruct tqdm_imported].
  - simpl. rewrite app_nil_r. by destruct w.
  - unfold_M. by rewrite Hn.
  - simpl. rewrite app_nil_r. by destruct w.
Qed.

(** The statements after the loop: the close, if asked for, then the
    prints under [debug]. *)
Lemma epilogue_run (close_file_flag debug : bool) w :
  ((if close_file_flag then call EvCloseFile (close_file dc) else mret tt);;
   if debug then emit EvPrintDuration;; emit (EvPrint "") else mret tt) w =
    match (if close_file_flag then close_file dc (model w) else Ok tt (model w)) with
    | Ok _ m' => Ok tt (mkWorld m' (trace w ++ closing_events close_file_flag debug))
    | Raise e m' => Raise e (mkWorld m' (trace w ++ [EvCloseFile]))
    end.
Proof.
  rewrite mbind_run. unfold closing_events. destruct close_file_flag.
  - rewrite call_run. destruct (close_file dc (model w)) as [[] m'|e m']; [|done].
    destruct debug; unfold_M; simpl; by rewrite <- ?app_assoc, ?app_nil_r.
  - destruct debug; unfold_M; simpl; rewrite <- ?app_assoc, ?app_nil_r;
      by destruct w.
Qed.

Lemma closing_events_counts (close_file_flag debug : bool) :
  close_calls (closing_events (DS:=DS) (Gals:=Gals) (Kwargs:=Kwargs) close_file_flag debug)
    = (if close_file_flag then 1 else 0)%nat ∧
  pbars_opened (closing_events (DS:=DS) (Gals:=Gals) (Kwargs:=Kwargs) close_file_flag debug)
    = 0%nat.
Proof. by destruct close_file_flag, debug. Qed.

(** The loop only adds events, none of them a close or a progress bar. *)
Lemma files_loop_grows cf snapshot pbar debug (files : list Z) w :
  ∃ new, trace (state_of (for_ files (file_step dc cf snapshot pbar debug) w))
           = trace w ++ new ∧
         close_calls new = 0%nat ∧ pbars_opened new = 0%nat.
Proof.
  revert w. induction files as [|f files IH]; intros w.
  - exists []. by rewrite app_nil_r.
  - rewrite for_cons.
    destruct (file_step_trace dc cf snapshot pbar debug f w) as (nb & Hnb & Hall).
    destruct (batch_events_silent nb Hall) as (_ & Hc & Hp).
    destruct (file_step dc cf snapshot pbar debug f w) as [[] w1|e w1]; simpl in Hnb.
    + destruct (IH w1) as (new & Hnew & Hcn & Hpn).
      exists ((EvReadGals f snapshot pbar debug :: nb) ++ new). split_and!.
      * by rewrite Hnew, Hnb, <- app_assoc.
      * rewrite close_calls_app, Hcn.
        change (close_calls (EvReadGals f snapshot pbar debug :: nb))
          with (close_calls nb). lia.
      * rewrite pbars_opened_app, Hpn.
        change (pbars_opened (EvReadGals f snapshot pbar debug :: nb))
          with (pbars_opened nb). lia.
    + exists (EvReadGals f snapshot pbar debug :: nb). simpl. split_and!; done.
Qed.

(** When the loop returns, every [read_gals] returned, its events are
    one block per file for the batches [read_gals] handed out, and the
    model is the one the batches and the registry entries give. *)
Lemma files_loop_blocks cf snapshot pbar debug (files : list Z) w w' :
  for_ files (file_step dc cf snapshot pbar debug) w = Ok tt w' →
  length (loop_batches dc cf snapshot pbar debug files (model w)) = length files ∧
  trace w' = trace w ++ concat (zip_with (file_block cf snapshot pbar debug) files
                                  (loop_batches dc cf snapshot pbar debug files (model w))) ∧
  model w' = loop_model dc cf snapshot pbar debug files (model w).
Proof.
  revert w. induction files as [|f files IH]; intros w.
  - rewrite for_nil. intros [= <-]. simpl. by rewrite app_nil_r.
  - rewrite for_cons. simpl.
    destruct (read_gals dc f snapshot pbar debug (model w)) as [[gals|] m'|e m'] eqn:E.
    + rewrite (file_step_batch dc _ _ _ _ _ _ _ _ E).
      destruct (calc_properties cf gals snapshot _) as [[] w1|e w1] eqn:Ecalc; [|done].
      apply calc_properties_returned in Ecalc as [Ht Hm]. simpl in Ht, Hm.
      intros H. apply IH in H as (Hlen & Hbatches & Hmodel).
      rewrite Hm in Hlen, Hbatches, Hmodel. split_and!.
      * simpl. by rewrite Hlen.
      * rewrite Hbatches, Ht. simpl. by rewrite <- !app_assoc.
      * done.
    + rewrite (file_step_skip dc _ _ _ _ _ _ _ E).
      intros H. apply IH in H as (Hlen & Hbatches & Hmodel). simpl in *. split_and!.
      * by rewrite Hlen.
      * rewrite Hbatches. by rewrite <- !app_assoc.
      * done.
    + by rewrite (file_step_raise dc _ _ _ _ _ _ _ _ E).
Qed.

(** With galaxies, the call is the loop and the closing statements run
    from the world the two data class calls and the progress bar left. *)
Lemma calc_properties_all_files_main cf snapshot close_file_flag use_pbar debug
    w m1 m2 n :
  update_snapshot_and_data_path dc snapshot (model w) = Ok tt m1 →
  determine_num_gals dc snapshot m1 = Ok tt m2 →
  _num_gals_all_files m2 = Some n → n ≠ 0 →
  calc_properties_all_files dc tqdm_imported cf snapshot close_file_flag use_pbar debug w =
    (files ← file_range;
     for_ files (file_step dc cf snapshot
                   (chosen_pbar tqdm_imported use_pbar debug n) debug);;
     (if close_file_flag then call EvCloseFile (close_file dc) else mret tt);;
     if debug then emit EvPrintDuration;; emit (EvPrint "") else mret tt)
      (mkWorld m2
         (trace w ++ [EvUpdateSnapshot snapshot; EvDetermineNumGals snapshot]
            ++ pbar_events (chosen_pbar tqdm_imported use_pbar debug n))).
Proof.
  intros H1 H2 H3 Hn. unfold calc_properties_all_files.
  rewrite mbind_run, call_run, H1. rewrite mbind_run, call_run. simpl. rewrite H2.
  rewrite mbind_run. unfold getattr at 1. simpl. rewrite H3.
  rewrite (proj2 (Z.eqb_neq n 0) Hn).
  set (w2 := mkWorld m2 _).
  rewrite mbind_run, (make_pbar_exact use_pbar debug w2 n H3). subst w2. simpl.
  by rewrite <- !app_assoc.
Qed.

Lemma tail_run cf snapshot pbar (close_file_flag debug : bool) w :
  (files ← file_range;
   for_ files (file_step dc cf snapshot pbar debug);;
   (if close_file_flag then call EvCloseFile (close_file dc) else mret tt);;
   if debug then emit EvPrintDuration;; emit (EvPrint "") else mret tt) w =
    match _first_file_to_analyze (model w), _last_file_to_analyze (model w) with
    | Some first, Some last =>
        match for_ (py_range first (last + 1))
                (file_step dc cf snapshot pbar debug) w with
        | Ok _ w4 =>
            match (if close_file_flag then close_file dc (model w4)
                   else Ok tt (model w4)) with
            | Ok _ m' =>
                Ok tt (mkWorld m' (trace w4 ++ closing_events close_file_flag debug))
            | Raise e m' => Raise e (mkWorld m' (trace w4 ++ [EvCloseFile]))
            end
        | Raise e w4 => Raise e w4
        end
    | _, _ => Raise TypeError w
    end.
Proof.
  rewrite mbind_run. unfold file_range at 1.
  destruct (_first_file_to_analyze (model w)) as [first|];
    [destruct (_last_file_to_analyze (model w)) as [last|]|]; try done.
  rewrite mbind_run.
  destruct (for_ (py_range first (last + 1)) (file_step dc cf snapshot pbar debug) w)
    as [[] w4|e w4]; [|done].
  apply epilogue_run.
Qed.

Lemma tail_analysis cf snapshot pbar (close_file_flag debug : bool) w :
  let r := (files ← file_range;
            for_ files (file_step dc cf snapshot pbar debug);;
            (if close_file_flag then call EvCloseFile (close_file dc) else mret tt);;
            if debug then emit EvPrintDuration;; emit (EvPrint "") else mret tt) w in
  ∃ new, trace (state_of r) = trace w ++ new ∧
         (close_calls new ≤ if close_file_flag then 1 else 0)%nat ∧
         pbars_opened new = 0%nat ∧
         (is_ok r = false → (∀ m, is_ok (close_file dc m) = true) →
          close_calls new = 0%nat).
Proof.
  intros r. subst r. rewrite tail_run.
  destruct (_first_file_to_analyze (model w)) as [first|];
    [destruct (_last_file_to_analyze (model w)) as [last|]|].
  2,3: exists []; simpl; rewrite app_nil_r; split_and!;
    [done|destruct close_file_flag; unfold close_calls; simpl; lia|done|done].
  destruct (files_loop_grows cf snapshot pbar debug (py_range first (last + 1)) w)
    as (new & Hnew & Hc & Hp).
  destruct (for_ (py_range first (last + 1)) (file_step dc cf snapshot pbar debug) w)
    as [[] w4|e w4]; simpl in Hnew.
  - destruct (closing_events_counts close_file_flag debug) as [Hcc Hcp].
    destruct close_file_flag.
    + destruct (close_file dc (model w4)) as [[] m'|e m'] eqn:Eclose; simpl.
      * exists (new ++ closing_events true debug). split_and!.
        -- by rewrite Hnew, <- app_assoc.
        -- rewrite close_calls_app, Hc, Hcc. lia.
        -- by rewrite pbars_opened_app, Hp, Hcp.
        -- done.
      * exists (new ++ [EvCloseFile]). split_and!.
        -- by rewrite Hnew, <- app_assoc.
        -- rewrite close_calls_app, Hc. simpl. unfold close_calls. simpl. lia.
        -- rewrite pbars_opened_app, Hp. done.
        -- intros _ Hok. specialize (Hok (model w4)). by rewrite Eclose in Hok.
    + simpl. exists (new ++ closing_events false debug). split_and!.
      * by rewrite Hnew, <- app_assoc.
      * rewrite close_calls_app, Hc, Hcc. lia.
      * by rewrite pbars_opened_app, Hp, Hcp.
      * done.
  - simpl. exists new. split_and!; [done|rewrite Hc; destruct close_file_flag; lia|done|done].
Qed.

(** Every way through the call. *)
Lemma calc_properties_all_files_cases cf snapshot close_file_flag use_pbar debug w :
  calc_properties_all_files dc tqdm_imported cf snapshot close_file_flag use_pbar debug w =
    match update_snapshot_and_data_path dc snapshot (model w) with
    | Raise e m1 => Raise e (mkWorld m1 (trace w ++ [EvUpdateSnapshot snapshot]))
    | Ok _ m1 =>
        let tr := trace w ++ [EvUpdateSnapshot snapshot; EvDetermineNumGals snapshot] in
        match determine_num_gals dc snapshot m1 with
        | Raise e m2 => Raise e (mkWorld m2 tr)
        | Ok _ m2 =>
            match _num_gals_all_files m2 with
            | None => Raise (AttributeError "_num_gals_all_files") (mkWorld m2 tr)
            | Some n =>
                if n =? 0 then
                  match _snapshot m2 with
                  | None => Raise (AttributeError "_snapshot") (mkWorld m2 tr)
                  | Some snap =>
                      Ok tt (mkWorld m2
                        (tr ++ [EvLogInfo
                                  ("There were no galaxies associated with this model at Snapshot "
                                   +:+ pretty snap +:+ ".");
                                EvPrint (pretty n)]))
                  end
                else
                  (files ← file_range;
                   for_ files (file_step dc cf snapshot
                                 (chosen_pbar tqdm_imported use_pbar debug n) debug);;
                   (if close_file_flag then call EvCloseFile (close_file dc)
                    else mret tt);;
                   if debug then emit EvPrintDuration;; emit (EvPrint "") else mret tt)
                    (mkWorld m2
                       (tr ++ pbar_events (chosen_pbar tqdm_imported use_pbar debug n)))
            end
        end
    end.
Proof.
  destruct (update_snapshot_and_data_path dc snapshot (model w)) as [[] m1|e m1] eqn:H1.
  2:{ unfold calc_properties_all_files. by rewrite mbind_run, call_run, H1. }
  destruct (determine_num_gals dc snapshot m1) as [[] m2|e m2] eqn:H2.
  2:{ unfold calc_properties_all_files.
      rewrite mbind_run, call_run, H1. rewrite mbind_run, call_run. simpl.
      rewrite H2. by rewrite <- app_assoc. }
  destruct (_num_gals_all_files m2) as [n|] eqn:H3.
  2:{ unfold calc_properties_all_files.
      rewrite mbind_run, call_run, H1. rewrite mbind_run, call_run. simpl.
      rewrite H2. rewrite mbind_run. unfold getattr at 1. simpl. rewrite H3.
      by rewrite <- app_assoc. }
  destruct (Z.eqb_spec n 0) as [->|Hn].
  - unfold calc_properties_all_files.
    rewrite mbind_run, call_run, H1. rewrite mbind_run, call_run. simpl.
    rewrite H2. unfold_M. simpl. rewrite H3. simpl.
    destruct (_snapshot m2); simpl; by rewrite <- !app_assoc.
  - rewrite (calc_properties_all_files_main cf snapshot close_file_flag use_pbar debug
               w m1 m2 n H1 H2 H3 Hn).
    cbv zeta. by rewrite <- !app_assoc.
Qed.

(** In every outcome: what the call has added to the trace. *)
Lemma calc_properties_all_files_analysis cf snapshot close_file_flag use_pbar debug w :
  let r := calc_properties_all_files dc tqdm_imported cf snapshot close_file_flag
             use_pbar debug w in
  ∃ new, trace (state_of r) = trace w ++ EvUpdateSnapshot snapshot :: new ∧
         (new = [] ∨ ∃ rest, new = EvDetermineNumGals snapshot :: rest) ∧
         (close_calls new ≤ if close_file_flag then 1 else 0)%nat ∧
         (pbars_opened new
            ≤ if debug || negb use_pbar || negb tqdm_imported then 0 else 1)%nat ∧
         (is_ok r = false → (∀ m, is_ok (close_file dc m) = true) →
          close_calls new = 0%nat).
Proof.
  intros r. subst r. rewrite calc_properties_all_files_cases.
  assert (∀ b : bool, (0 ≤ if b then 1 else 0)%nat) as Hb by (intros []; lia).
  assert (∀ b : bool, (0 ≤ if b then 0 else 1)%nat) as Hb' by (intros []; lia).
  destruct (update_snapshot_and_data_path dc snapshot (model w)) as [[] m1|e m1].
  2:{ exists []. simpl. split_and!; [done|by left|apply Hb|apply Hb'|done]. }
  cbv zeta.
  destruct (determine_num_gals dc snapshot m1) as [[] m2|e m2].
  2:{ exists [EvDetermineNumGals snapshot]. simpl.
      split_and!; [done|right; by eexists|apply Hb|apply Hb'|done]. }
  destruct (_num_gals_all_files m2) as [n|].
  2:{ exists [EvDetermineNumGals snapshot]. simpl.
      split_and!; [done|right; by eexists|apply Hb|apply Hb'|done]. }
  destruct (n =? 0).
  - destruct (_snapshot m2) as [snap|].
    + eexists (EvDetermineNumGals snapshot :: [_; _]). simpl.
      split_and!; [by rewrite <- app_assoc|right; by eexists|apply Hb|apply Hb'|done].
    + exists [EvDetermineNumGals snapshot]. simpl.
      split_and!; [done|right; by eexists|apply Hb|apply Hb'|done].
  - set (pbar := chosen_pbar tqdm_imported use_pbar debug n).
    set (w3 := mkWorld m2 _).
    destruct (tail_analysis cf snapshot pbar close_file_flag debug w3)
      as (new & Hnew & Hc & Hp & Herr).
    exists (EvDetermineNumGals snapshot :: pbar_events pbar ++ new).
    assert (close_calls (EvDetermineNumGals snapshot :: pbar_events pbar ++ new)
            = close_calls new) as Hc'.
    { change (close_calls (EvDetermineNumGals snapshot :: pbar_events pbar ++ new))
        with (close_calls (pbar_events pbar ++ new)).
      rewrite close_calls_app. by destruct pbar. }
    split_and!.
    + rewrite Hnew. subst w3. simpl. by rewrite <- !app_assoc.
    + right. by eexists.
    + by rewrite Hc'.
    + change (pbars_opened (EvDetermineNumGals snapshot :: pbar_events pbar ++ new))
        with (pbars_opened (pbar_events pbar ++ new)).
      rewrite pbars_opened_app, Hp. subst pbar. unfold chosen_pbar.
      destruct debug, use_pbar, tqdm_imported; simpl; unfold pbars_opened; simpl; lia.
    + rewrite Hc'. exact Herr.
Qed.

(** X14.  A call that finds galaxies and returns has added to the trace,
    after the two data class calls and the opening of the progress bar (if
    one is used), one block per file of [range(first, last + 1)], in order:
    the request for the file and, unless the batch [read_gals] returned
    for it was [None], the print of the registry followed by one call of
    each registry entry in registry order on that batch; then the close,
    if asked for, and the prints under [debug].  The batches are the ones
    [read_gals] returns when each file is read on the model the turns
    before it left, and the model at the end is the one these turns give,
    after [close_file] if asked for. *)
Theorem calc_properties_all_files_blocks cf snapshot close_file_flag use_pbar debug
    w m1 m2 n first last w' :
  update_snapshot_and_data_path dc snapshot (model w) = Ok tt m1 →
  determine_num_gals dc snapshot m1 = Ok tt m2 →
  _num_gals_all_files m2 = Some n → n ≠ 0 →
  _first_file_to_analyze m2 = Some first →
  _last_file_to_analyze m2 = Some last →
  calc_properties_all_files dc tqdm_imported cf snapshot close_file_flag use_pbar debug w
    = Ok tt w' →
  let pbar := chosen_pbar tqdm_imported use_pbar debug n in
  let files := seqZ first (last + 1 - first) in
  let batches := loop_batches dc cf snapshot pbar debug files m2 in
  let m3 := loop_model dc cf snapshot pbar debug files m2 in
  length batches = length files ∧
  trace w' =
    trace w ++ [EvUpdateSnapshot snapshot; EvDetermineNumGals snapshot]
      ++ pbar_events pbar
      ++ concat (zip_with (file_block cf snapshot pbar debug) files batches)
      ++ closing_events close_file_flag debug ∧
  (if close_file_flag then close_file dc m3 = Ok tt (model w') else model w' = m3).
Proof.
  intros H1 H2 H3 Hn Hfirst Hlast Hrun pbar files batches m3.
  rewrite (calc_properties_all_files_main cf snapshot close_file_flag use_pbar debug
             w m1 m2 n H1 H2 H3 Hn) in Hrun.
  rewrite tail_run in Hrun. simpl in Hrun. rewrite Hfirst, Hlast in Hrun.
  fold pbar in Hrun. unfold py_range in Hrun. fold files in Hrun.
  destruct (for_ files (file_step dc cf snapshot pbar debug) _) as [[] w4|e w4] eqn:Hloop;
    [|done].
  apply files_loop_blocks in Hloop as (Hlen & Hbatches & Hmodel).
  simpl in Hlen, Hbatches, Hmodel. fold batches in Hlen, Hbatches. fold m3 in Hmodel.
  split; [done|].
  destruct close_file_flag.
  - destruct (close_file dc (model w4)) as [[] m'|e m'] eqn:Hclose; [|done].
    injection Hrun as <-. simpl. split.
    + rewrite Hbatches. simpl. by rewrite <- !app_assoc.
    + by rewrite <- Hmodel.
  - injection Hrun as <-. simpl. split.
    + rewrite Hbatches. simpl. by rewrite <- !app_assoc.
    + done.
Qed.

(** X15.  Whatever the data class and the calculation functions do, one
    call asks the data class to position itself first and to count
    second, before anything else; it asks it to close at most once, and
    never when [close_file] is false; it opens at most one progress bar,
    and none under [debug], without [use_pbar] or without [tqdm]. *)
Theorem calc_properties_all_files_never cf snapshot close_file_flag use_pbar debug w :
  let r := calc_properties_all_files dc tqdm_imported cf snapshot close_file_flag
             use_pbar debug w in
  ∃ new, trace (state_of r) = trace w ++ EvUpdateSnapshot snapshot :: new ∧
         (new = [] ∨ ∃ rest, new = EvDetermineNumGals snapshot :: rest) ∧
         (close_calls new ≤ if close_file_flag then 1 else 0)%nat ∧
         (pbars_opened new
            ≤ if debug || negb use_pbar || negb tqdm_imported then 0 else 1)%nat.
Proof.
  intros r.
  destruct (calc_properties_all_files_analysis cf snapshot close_file_flag use_pbar
              debug w) as (new & H1 & H2 & H3 & H4 & _).
  by exists new.
Qed.

(** X16.  There is no clean-up on failure: when the close method itself
    cannot raise, a call that raises, for whatever reason, has not asked
    the data class to close. *)
Theorem calc_properties_all_files_raise_skips_close cf snapshot close_file_flag
    use_pbar debug w :
  (∀ m, is_ok (close_file dc m) = true) →
  is_ok (calc_properties_all_files dc tqdm_imported cf snapshot close_file_flag
           use_pbar debug w) = false →
  close_calls (trace (state_of
    (calc_properties_all_files dc tqdm_imported cf snapshot close_file_flag
       use_pbar debug w))) = close_calls (trace w).
Proof.
  intros Hclose Hraise.
  destruct (calc_properties_all_files_analysis cf snapshot close_file_flag use_pbar
              debug w) as (new & Ht & _ & _ & _ & Herr).
  rewrite Ht, close_calls_app.
  change (close_calls (EvUpdateSnapshot snapshot :: new)) with (close_calls new).
  rewrite Herr by done. lia.
Qed.

(** X17.  With galaxies but an empty range of files ([last < first]) no
    file is asked for and no calculation function is called: the call goes
    straight to the closing statements. *)
Theorem calc_properties_all_files_empty_range cf snapshot close_file_flag use_pbar
    debug w m1 m2 n first last :
  update_snapshot_and_data_path dc snapshot (model w) = Ok tt m1 →
  determine_num_gals dc snapshot m1 = Ok tt m2 →
  _num_gals_all_files m2 = Some n → n ≠ 0 →
  _first_file_to_analyze m2 = Some first →
  _last_file_to_analyze m2 = Some last →
  last < first →
  let tr := trace w ++ [EvUpdateSnapshot snapshot; EvDetermineNumGals snapshot]
              ++ pbar_events (chosen_pbar tqdm_imported use_pbar debug n) in
  calc_properties_all_files dc tqdm_imported cf snapshot close_file_flag use_pbar debug w
    = match (if close_file_flag then close_file dc m2 else Ok tt m2) with
      | Ok _ m' => Ok tt (mkWorld m' (tr ++ closing_events close_file_flag debug))
      | Raise e m' => Raise e (mkWorld m' (tr ++ [EvCloseFile]))
      end.
Proof.
  intros H1 H2 H3 Hn Hfirst Hlast Hlt tr.
  rewrite (calc_properties_all_files_main cf snapshot close_file_flag use_pbar debug
             w m1 m2 n H1 H2 H3 Hn).
  rewrite tail_run. simpl. rewrite Hfirst, Hlast. unfold py_range.
  rewrite seqZ_nil by lia.
  rewrite for_nil. done.
Qed.

(** X18.  When there are galaxies but the first or the last file to
    analyze is [None] (construction allows that for formats other than
    ["sage_binary"]), the call raises [TypeError] on building the range:
    after the progress bar was opened, before any file is asked for, and
    without closing. *)
Theorem calc_properties_all_files_no_bounds cf snapshot close_file_flag use_pbar
    debug w m1 m2 n :
  update_snapshot_and_data_path dc snapshot (model w) = Ok tt m1 →
  determine_num_gals dc snapshot m1 = Ok tt m2 →
  _num_gals_all_files m2 = Some n → n ≠ 0 →
  _first_file_to_analyze m2 = None ∨ _last_file_to_analyze m2 = None →
  calc_properties_all_files dc tqdm_imported cf snapshot close_file_flag use_pbar debug w
    = Raise TypeError
        (mkWorld m2
           (trace w ++ [EvUpdateSnapshot snapshot; EvDetermineNumGals snapshot]
              ++ pbar_events (chosen_pbar tqdm_imported use_pbar debug n))).
Proof.
  intros H1 H2 H3 Hn Hnone.
  rewrite (calc_properties_all_files_main cf snapshot close_file_flag use_pbar debug
             w m1 m2 n H1 H2 H3 Hn).
  rewrite tail_run. simpl.
  destruct Hnone as [-> | ->]; [done|]. by destruct (_first_file_to_analyze m2).
Qed.

(** X19.  The call relies on the data class to bind what it reads: if
    [determine_num_gals] returns without binding [_num_gals_all_files],
    or reports no galaxies while [_snapshot] is unbound, the call raises
    [AttributeError] right after the count, with the model as the data
    class left it. *)
Theorem calc_properties_all_files_unbound cf snapshot close_file_flag use_pbar
    debug w m1 m2 :
  update_snapshot_and_data_path dc snapshot (model w) = Ok tt m1 →
  determine_num_gals dc snapshot m1 = Ok tt m2 →
  _num_gals_all_files m2 = None ∨
  (_num_gals_all_files m2 = Some 0 ∧ _snapshot m2 = None) →
  ∃ attr,
    calc_properties_all_files dc tqdm_imported cf snapshot close_file_flag use_pbar debug w
      = Raise (AttributeError attr)
          (mkWorld m2
             (trace w ++ [EvUpdateSnapshot snapshot; EvDetermineNumGals snapshot])).
Proof.
  intros H1 H2 Hun. rewrite calc_properties_all_files_cases, H1. cbv zeta.
  rewrite H2. destruct Hun as [-> | [-> ->]]; by eexists.
Qed.

End AllFilesMore.

(** ** The progress bar and the result *)

Section ProgressBar.

Context {DS Gals Kwargs : Type}.
Local Abbreviation M := (M DS Gals Kwargs).
Local Abbreviation World := (World DS Gals Kwargs).
Local Abbreviation Event := (Event DS Gals Kwargs).
Local Abbreviation CalcFn := (CalcFn DS Gals Kwargs).

Implicit Types (cf : list (string * (CalcFn * Kwargs))) (w : World).

Lemma agree_bind {A B} (c c' : M A) (k k' : A → M B) :
  agree c c' → (∀ a, agree (k a) (k' a)) → agree (c ≫= k) (c' ≫= k').
Proof.
  intros Hc Hk w w' Hm. change ((c ≫= k) w) with (bind c k w).
  change ((c' ≫= k') w') with (bind c' k' w'). unfold bind.
  specialize (Hc w w' Hm).
  destruct (c w) as [a v|e v], (c' w') as [a' v'|e' v']; simpl in Hc; try done.
  - injection Hc as <- Hv. by apply Hk.
  - injection Hc as <- Hv. simpl. by rewrite Hv.
Qed.

Lemma agree_ret {A} (a : A) : agree (mret a : M A) (mret a).
Proof. intros w w' Hm. simpl. by rewrite Hm. Qed.

Lemma agree_emit (ev ev' : Event) : agree (emit ev) (emit ev').
Proof. intros w w' Hm. simpl. by rewrite Hm. Qed.

Lemma agree_call {A} (ev ev' : Event) (f : Ext DS A) : agree (call ev f) (call ev' f).
Proof.
  intros w w' Hm. unfold call. rewrite Hm. by destruct (f (model w')).
Qed.

Lemma agree_for {A} (xs : list A) (body body' : A → M unit) :
  (∀ x, agree (body x) (body' x)) → agree (for_ xs body) (for_ xs body').
Proof.
  intros Hbody. induction xs as [|x xs IH].
  - apply (agree_ret tt).
  - apply (agree_bind (body x) (body' x)); [apply Hbody|]. intros _. apply IH.
Qed.

Lemma agree_calc_properties cf (gals : Gals) (snapshot : Z) :
  agree (calc_properties cf gals snapshot) (calc_properties cf gals snapshot).
Proof.
  unfold calc_properties. apply agree_for. intros [func kwargs]. apply agree_call.
Qed.

Lemma agree_file_step (dc : DataClass DS Gals) cf snapshot pbar pbar' debug file_num :
  (∀ m, read_gals dc file_num snapshot pbar debug m
        = read_gals dc file_num snapshot pbar' debug m) →
  agree (file_step dc cf snapshot pbar debug file_num)
        (file_step dc cf snapshot pbar' debug file_num).
Proof.
  intros Hread. unfold file_step. apply agree_bind.
  - intros w w' Hm. unfold call. rewrite Hm, Hread.
    by destruct (read_gals dc file_num snapshot pbar' debug (model w')).
  - intros [gals|]; [|apply (agree_ret tt)].
    apply agree_bind; [apply agree_emit|]. intros _. apply agree_calc_properties.
Qed.

Lemma agree_file_range : agree (file_range (DS:=DS) (Gals:=Gals) (Kwargs:=Kwargs)) file_range.
Proof.
  intros w w' Hm. unfold file_range. rewrite Hm.
  destruct (_first_file_to_analyze (model w')), (_last_file_to_analyze (model w'));
    simpl; by rewrite Hm.
Qed.

(** X20.  The progress bar never changes the result.  If the data class
    reads the same batch whatever progress bar it is handed, then whether
    a bar is asked for and whether [tqdm] is there make no difference to
    how the call ends nor to the model it leaves; only the trace
    differs. *)
Theorem calc_properties_all_files_pbar_irrelevant (dc : DataClass DS Gals)
    (tqdm_imported tqdm_imported' use_pbar use_pbar' : bool)
    cf snapshot (close_file_flag debug : bool) w w' :
  (∀ file_num pbar pbar' m,
     read_gals dc file_num snapshot pbar debug m
       = read_gals dc file_num snapshot pbar' debug m) →
  model w = model w' →
  outcome (calc_properties_all_files dc tqdm_imported cf snapshot close_file_flag
             use_pbar debug w)
  = outcome (calc_properties_all_files dc tqdm_imported' cf snapshot close_file_flag
               use_pbar' debug w').
Proof.
  intros Hread Hm. rewrite !calc_properties_all_files_cases. rewrite Hm.
  destruct (update_snapshot_and_data_path dc snapshot (model w')) as [[] m1|e m1];
    [|done]. cbv zeta.
  destruct (determine_num_gals dc snapshot m1) as [[] m2|e m2]; [|done].
  destruct (_num_gals_all_files m2) as [n|]; [|done].
  destruct (n =? 0); [by destruct (_snapshot m2)|].
  set (pbar := chosen_pbar tqdm_imported use_pbar debug n).
  set (pbar' := chosen_pbar tqdm_imported' use_pbar' debug n).
  assert (agree
    (files ← file_range;
     for_ files (file_step dc cf snapshot pbar debug);;
     (if close_file_flag then call EvCloseFile (close_file dc) else mret tt);;
     if debug then emit EvPrintDuration;; emit (EvPrint "") else mret tt)
    (files ← file_range;
     for_ files (file_step dc cf snapshot pbar' debug);;
     (if close_file_flag then call EvCloseFile (close_file dc) else mret tt);;
     if debug then emit EvPrintDuration;; emit (EvPrint "") else mret tt)) as Hagree.
  { apply agree_bind; [apply agree_file_range|]. intros files.
    apply agree_bind.
    { apply agree_for. intros f. apply agree_file_step. intros m. apply Hread. }
    intros _. apply agree_bind.
    { destruct close_file_flag; [apply agree_call|apply (agree_ret tt)]. }
    intros _. destruct debug; [|apply (agree_ret tt)].
    apply agree_bind; [apply agree_emit|]. intros _. apply agree_emit. }
  by apply Hagree.
Qed.

End ProgressBar.

(** * The further properties at work *)

Section MoreDemoFacts.

Import Demo Demo2.
#[local] Existing Instance exact.

Local Abbreviation World := (World DS Gals Kwargs).

Lemma ok_state {S} (r : Res S unit) : is_ok r = true → r = Ok tt (state_of r).
Proof. by destruct r as [[] ?|]. Qed.

Lemma init_calls_commute_witness :
  after_inits [InitScatter ["SMF"] 0; InitSingle ["SMF"; "TotalMass"] 1] (demo_world [] 0)
  = after_inits [InitSingle ["SMF"; "TotalMass"] 1; InitScatter ["SMF"] 0] (demo_world [] 0).
Proof.
  apply (init_calls_commute (InitScatter ["SMF"] 0) (InitSingle ["SMF"; "TotalMass"] 1)).
  split; simpl; [left; lia|by left].
Defined.

Lemma init_binned_properties_no_edges_witness :
  init_binned_properties (finite 5) (finite 2) (finite 1) "bins" ["SMF"] 0
    (demo_world [] 0)
  = Raise (ValueError "negative dimensions are not allowed")
      (mkWorld (with_bins (<[ "bins" := [] ]> (_bins (demo_model [] 0))) (demo_model [] 0)) []).
Proof.
  apply (proj2 (init_binned_properties_no_edges "bins" ["SMF"] 0 (demo_world [] 0))
           5%Q 2%Q 1%Q);
    first [reflexivity | unfold Qle; simpl; lia].
Defined.

Lemma init_binned_properties_zero_width_witness :
  init_binned_properties (finite 0) (finite 2) (finite 0) "bins" ["SMF"] 0
    (demo_world [] 0)
  = Raise ZeroDivisionError (demo_world [] 0).
Proof.
  apply (proj1 (proj2 (init_binned_properties_zero_width "bins" ["SMF"] 0
                         (demo_world [] 0))) 0%Q 2%Q 0%Q).
  reflexivity.
Defined.

Lemma volume_setter_after_init_witness :
  volume_setter (finite 1) (demo_world [] 0)
    = Raise (AttributeError "_box_size") (demo_world [] 0).
Proof.
  apply (volume_setter_after_init [] "mini-millennium.ini" (Some "sage_hdf5") None
           (Some 0) (Some 0) None None "Chabrier" [] [] 1000 (finite (-11 # 1))).
  reflexivity.
Defined.

Lemma assignments_keep_volume_not_above_cube_witness :
  let w : World := mkWorld (with_box_size (Some (finite 2)) (demo_model [] 0)) [] in
  let w' := after_assignments
              [AssignVolume (finite 8); AssignVolume (finite 9); AssignVolume nan;
               AssignIMF "Kroupa"] w in
  volume_not_above_cube (model w') ∧ _box_size (model w') = _box_size (model w).
Proof.
  intros w w'.
  apply (assignments_keep_volume_not_above_cube
           [AssignVolume (finite 8); AssignVolume (finite 9); AssignVolume nan;
            AssignIMF "Kroupa"] w).
  intros box_size vol cube _ Hvol. discriminate Hvol.
Defined.

(** With a box of size [2]: the volume [8] is stored, [9] is rejected and
    leaves [8]; NaN is stored, [>] being false on it. *)
Example assignments_demo :
  let w : World := mkWorld (with_box_size (Some (finite 2)) (demo_model [] 0)) [] in
  _volume (model (after_assignments [AssignVolume (finite 8); AssignVolume (finite 9)] w))
    = Some (finite 8) ∧
  _volume (model (after_assignments [AssignVolume (finite 8); AssignVolume nan] w))
    = Some nan ∧
  is_ok (volume_setter (infinity false) w) = false.
Proof. vm_compute. done. Qed.

Lemma assignments_keep_IMF_allowed_witness :
  _IMF (model (after_assignments [AssignIMF "Kroupa"; AssignIMF "Salpeter"; AssignVolume (finite 1)]
                 (demo_world [] 0)))
    ∈ allowed_IMF.
Proof.
  apply (assignments_keep_IMF_allowed
           [AssignIMF "Kroupa"; AssignIMF "Salpeter"; AssignVolume (finite 1)] (demo_world [] 0)).
  simpl. unfold allowed_IMF. apply list_elem_of_here.
Defined.

Lemma calc_properties_stops_at_raise_witness :
  let w : World := state_of (init_single_properties ["TotalMass"] 0 (demo_world [] 0)) in
  let w1 := state_of (calc_properties [("TotalMass", (calc_total_mass, 1%Q))]
                        [1%Q; 2%Q] 0 w) in
  calc_properties ([("TotalMass", (calc_total_mass, 1%Q))]
                     ++ ("NumGals", (calc_num_gals, 1%Q))
                     :: [("TotalMass", (calc_total_mass, 1%Q))]) [1%Q; 2%Q] 0 w
  = Raise (KeyError "NumGals")
      (mkWorld (model w1)
         (trace w ++ (calc_event [1%Q; 2%Q] 0 <$> [(calc_total_mass, 1%Q)])
            ++ [EvCalc calc_num_gals [1%Q; 2%Q] 0 1%Q])) ∧
  model w1 = run_entries [1%Q; 2%Q] 0 [(calc_total_mass, 1%Q)] (model w).
Proof.
  intros w w1.
  apply (calc_properties_stops_at_raise
           [("TotalMass", (calc_total_mass, 1%Q))] "NumGals" calc_num_gals 1%Q
           [("TotalMass", (calc_total_mass, 1%Q))] [1%Q; 2%Q] 0 w w1).
  - apply ok_state. vm_compute. reflexivity.
  - vm_compute. reflexivity.
Defined.

Lemma calc_properties_all_files_blocks_witness :
  let w : World := state_of (init_single_properties ["TotalMass"; "NumGals"] 0
                               (demo_world [Some [1%Q; 2%Q]; None] 1)) in
  let r := calc_properties_all_files demo_data_class true demo_functions
             0 true true false w in
  let m2 := with_num_gals_all_files (Some 2) (with_snapshot (Some 0) (model w)) in
  let pbar := chosen_pbar true true false 2 in
  let files := seqZ 0 (1 + 1 - 0) in
  let batches := loop_batches demo_data_class demo_functions 0 pbar false files m2 in
  let m3 := loop_model demo_data_class demo_functions 0 pbar false files m2 in
  length batches = length files ∧
  trace (state_of r) =
    trace w ++ [EvUpdateSnapshot 0; EvDetermineNumGals 0]
      ++ pbar_events pbar
      ++ concat (zip_with (file_block demo_functions 0 pbar false) files batches)
      ++ closing_events true false ∧
  close_file demo_data_class m3 = Ok tt (model (state_of r)).
Proof.
  intros w r m2 pbar files batches m3.
  apply (calc_properties_all_files_blocks demo_data_class true demo_functions
           0 true true false w (with_snapshot (Some 0) (model w)) m2
           2 0 1 (state_of r));
    [reflexivity | reflexivity | reflexivity | lia | reflexivity | reflexivity |].
  apply ok_state. vm_compute. reflexivity.
Defined.

(** The batches of that run, and the totals it leaves. *)
Example loop_batches_demo :
  let w : World := state_of (init_single_properties ["TotalMass"; "NumGals"] 0
                               (demo_world [Some [1%Q; 2%Q]; None] 1)) in
  let m2 := with_num_gals_all_files (Some 2) (with_snapshot (Some 0) (model w)) in
  let pbar := chosen_pbar true true false 2 in
  loop_batches demo_data_class demo_functions 0 pbar false [0; 1] m2
    = [Some [1%Q; 2%Q]; None] ∧
  accumulator
    (_properties (loop_model demo_data_class demo_functions 0 pbar false [0; 1] m2))
    "snapshot_0" "TotalMass" = Some (pyfloat (finite 3)).
Proof. vm_compute. done. Qed.

Lemma calc_properties_all_files_raise_skips_close_witness :
  let w : World := demo_world [Some [1%Q; 2%Q]] 0 in
  let r := calc_properties_all_files demo_data_class true demo_functions
             0 true true false w in
  close_calls (trace (state_of r)) = close_calls (trace w).
Proof.
  intros w r.
  apply (calc_properties_all_files_raise_skips_close demo_data_class true
           demo_functions 0 true true false w).
  - intros m. reflexivity.
  - vm_compute. reflexivity.
Defined.

Lemma calc_properties_all_files_empty_range_witness :
  let w : World := demo_world [Some [1%Q; 2%Q]] (-1) in
  let m2 := with_num_gals_all_files (Some 2) (with_snapshot (Some 0) (model w)) in
  calc_properties_all_files demo_data_class true demo_functions 0 true true false w
  = Ok tt (mkWorld m2
             ((trace w ++ [EvUpdateSnapshot 0; EvDetermineNumGals 0]
                 ++ pbar_events (chosen_pbar true true false 2))
                ++ closing_events true false)).
Proof.
  intros w m2.
  apply (calc_properties_all_files_empty_range demo_data_class true demo_functions
           0 true true false w (with_snapshot (Some 0) (model w)) m2 2 0 (-1));
    first [reflexivity | lia].
Defined.

Lemma calc_properties_all_files_no_bounds_witness :
  let w : World := mkWorld (unbounded_model [Some [1%Q]]) [] in
  let m2 := with_num_gals_all_files (Some 1) (with_snapshot (Some 0) (model w)) in
  calc_properties_all_files demo_data_class true demo_functions 0 true true false w
  = Raise TypeError
      (mkWorld m2 (trace w ++ [EvUpdateSnapshot 0; EvDetermineNumGals 0]
                     ++ pbar_events (chosen_pbar true true false 1))).
Proof.
  intros w m2.
  apply (calc_properties_all_files_no_bounds demo_data_class true demo_functions
           0 true true false w (with_snapshot (Some 0) (model w)) m2 1);
    first [reflexivity | lia | (left; reflexivity)].
Defined.

Lemma calc_properties_all_files_unbound_witness :
  let w : World := demo_world [] 0 in
  ∃ attr,
    calc_properties_all_files idle_data_class true demo_functions 0 true true false w
    = Raise (AttributeError attr)
        (mkWorld (model w) (trace w ++ [EvUpdateSnapshot 0; EvDetermineNumGals 0])).
Proof.
  intros w.
  apply (calc_properties_all_files_unbound idle_data_class true demo_functions
           0 true true false w (model w) (model w));
    first [reflexivity | (left; reflexivity)].
Defined.

Lemma calc_properties_all_files_pbar_irrelevant_witness :
  let w : World := state_of (init_single_properties ["TotalMass"; "NumGals"] 0
                               (demo_world [Some [1%Q; 2%Q]; Some [3%Q]] 1)) in
  outcome (calc_properties_all_files demo_data_class true demo_functions
             0 true true false w)
  = outcome (calc_properties_all_files demo_data_class false demo_functions
               0 true false false w).
Proof.
  intros w.
  apply (calc_properties_all_files_pbar_irrelevant demo_data_class true false true false
           demo_functions 0 true false w w).
  - intros file_num pbar pbar' m. reflexivity.
  - reflexivity.
Defined.

End MoreDemoFacts.

(** ** The driver changes nothing by itself *)

Section Preservation.

Context {DS Gals Kwargs : Type}.
Local Abbreviation M := (M DS Gals Kwargs).
Local Abbreviation World := (World DS Gals Kwargs).
Local Abbreviation CalcFn := (CalcFn DS Gals Kwargs).

Context (dc : DataClass DS Gals) (tqdm_imported : bool).
Context (P : Model DS → Prop).

Implicit Types (cf : list (string * (CalcFn * Kwargs))) (w : World).

Lemma calc_properties_preserves cf (gals : Gals) (snapshot : Z) w :
  Forall (λ entry, ∀ m, P m → P (state_of (entry.1 m gals snapshot entry.2)))
    (values cf) →
  P (model w) → P (model (state_of (calc_properties cf gals snapshot w))).
Proof.
  revert w. induction cf as [|[name [func kwargs]] cf IH]; intros w Hall Hw; [done|].
  apply Forall_cons in Hall as [Hf Hall]. rewrite calc_properties_cons.
  specialize (Hf (model w) Hw). simpl in Hf.
  destruct (func (model w) gals snapshot kwargs) as [[] m'|e m']; [|done].
  by apply IH.
Qed.

Lemma files_loop_preserves cf snapshot pbar debug (files : list Z) w :
  (∀ file_num m, P m → P (state_of (read_gals dc file_num snapshot pbar debug m))) →
  (∀ gals, Forall (λ entry, ∀ m, P m → P (state_of (entry.1 m gals snapshot entry.2)))
             (values cf)) →
  P (model w) →
  P (model (state_of (for_ files (file_step dc cf snapshot pbar debug) w))).
Proof.
  intros Hread Hcalc. revert w. induction files as [|f files IH]; intros w Hw; [done|].
  rewrite for_cons.
  assert (P (model (state_of (file_step dc cf snapshot pbar debug f w)))) as Hstep.
  { specialize (Hread f (model w) Hw).
    destruct (read_gals dc f snapshot pbar debug (model w)) as [[gals|] m'|e m'] eqn:E.
    - rewrite (file_step_batch dc _ _ _ _ _ _ _ _ E).
      by apply calc_properties_preserves.
    - by rewrite (file_step_skip dc _ _ _ _ _ _ _ E).
    - by rewrite (file_step_raise dc _ _ _ _ _ _ _ _ E). }
  destruct (file_step dc cf snapshot pbar debug f w) as [[] w1|e w1]; [|done].
  by apply IH.
Qed.

(** X22.  The driver changes the model only through the data class and
    the calculation functions: a property of the model that each of the
    four data class methods and each registry function keeps, holds of the
    model the call leaves, whether it returns or raises. *)
Theorem calc_properties_all_files_preserves cf snapshot close_file_flag use_pbar
    debug w :
  (∀ m, P m → P (state_of (update_snapshot_and_data_path dc snapshot m))) →
  (∀ m, P m → P (state_of (determine_num_gals dc snapshot m))) →
  (∀ file_num pbar m, P m → P (state_of (read_gals dc file_num snapshot pbar debug m))) →
  (∀ m, P m → P (state_of (close_file dc m))) →
  (∀ gals, Forall (λ entry, ∀ m, P m → P (state_of (entry.1 m gals snapshot entry.2)))
             (values cf)) →
  P (model w) →
  P (model (state_of (calc_properties_all_files dc tqdm_imported cf snapshot
                        close_file_flag use_pbar debug w))).
Proof.
  intros Hupd Hdet Hread Hclose Hcalc Hw.
  rewrite calc_properties_all_files_cases.
  specialize (Hupd (model w) Hw).
  destruct (update_snapshot_and_data_path dc snapshot (model w)) as [[] m1|e m1];
    [|done]. cbv zeta. simpl in Hupd.
  specialize (Hdet m1 Hupd).
  destruct (determine_num_gals dc snapshot m1) as [[] m2|e m2]; [|done].
  simpl in Hdet.
  destruct (_num_gals_all_files m2) as [n|]; [|done].
  destruct (n =? 0); [by destruct (_snapshot m2)|].
  rewrite tail_run. simpl.
  destruct (_first_file_to_analyze m2) as [first|]; [|done].
  destruct (_last_file_to_analyze m2) as [last|]; [|done].
  set (pbar := chosen_pbar tqdm_imported use_pbar debug n).
  set (w3 := mkWorld m2 _).
  pose proof (files_loop_preserves cf snapshot pbar debug (py_range first (last + 1)) w3
                (λ f m, Hread f pbar m) Hcalc Hdet) as Hloop.
  destruct (for_ (py_range first (last + 1)) (file_step dc cf snapshot pbar debug) w3)
    as [[] w4|e w4]; [|done]. simpl in Hloop.
  destruct close_file_flag; [|done].
  specialize (Hclose (model w4) Hloop).
  by destruct (close_file dc (model w4)) as [[] m'|e m'].
Qed.

End Preservation.

Section MoreDemoFacts2.

Import Demo Demo2.
#[local] Existing Instance exact.

Local Abbreviation World := (World DS Gals Kwargs).

Lemma init_binned_properties_lengths_witness :
  let r := init_binned_properties (finite 2) (finite 0) (finite (-1)) "bins" ["SMF"] 0
             (demo_world [] 0) in
  ∃ edges,
    _bins (model (state_of r)) !! "bins" = Some edges ∧ (1 ≤ length edges)%nat ∧
    accumulator (_properties (model (state_of r))) (snapshot_key 0) "SMF"
      = Some (ndarray (replicate (length edges - 1) zero)).
Proof.
  intros r.
  apply (init_binned_properties_lengths (finite 2) (finite 0) (finite (-1)) "bins"
           ["SMF"] 0 (demo_world [] 0)
           (state_of r) "SMF").
  - apply ok_state. vm_compute. reflexivity.
  - apply list_elem_of_here.
Defined.

(** The demo data class and the demo functions never touch [_IMF]. *)
Lemma calc_properties_all_files_preserves_witness :
  let w : World := state_of (init_single_properties ["TotalMass"] 0
                               (demo_world [Some [1%Q; 2%Q]; None] 1)) in
  _IMF (model (state_of (calc_properties_all_files demo_data_class true demo_functions
                           0 true true false w))) = "Chabrier".
Proof.
  intros w.
  apply (calc_properties_all_files_preserves demo_data_class true
           (λ m, _IMF m = "Chabrier") demo_functions 0 true true false w).
  - intros m Hm. exact Hm.
  - intros m Hm. exact Hm.
  - intros file_num pbar m Hm. exact Hm.
  - intros m Hm. exact Hm.
  - intros gals. repeat constructor; intros m Hm; simpl;
      unfold calc_total_mass, calc_num_gals, add_to_single;
      repeat case_match; exact Hm.
  - reflexivity.
Defined.

End MoreDemoFacts2.
